(** * Soil tension curve calculator: the model functions and the fit driver

    A shallow embedding of [SoilTentionCurve_2.py]: the three retention
    models [VG], [Campbell] and [BC], the significance mapping
    [sig_symbol], the file loader [load_file], the column extraction
    [return_column] and the fit driver [curve], with the properties the
    specification states about them.

    The source computes on numpy [float64] values.  The model functions
    are written once, over an interface of the arithmetic they use, and
    read at two carriers:

    - [float], the kernel's IEEE-754 binary64 numbers, where [+ - * /]
      and the comparisons are the processor's and [**] is the C
      library's [pow]: fixed by the model where C99 Annex F fixes it,
      and the library's own function elsewhere;
    - [R], exact real arithmetic, the reading under which the
      specification's formulas are identities of analysis.

    Text is Python's [str]: a sequence of Unicode code points.  What the
    interpreter decides and the source does not (the Unicode character
    database, the builtin [float], the wording of a message) is a
    parameter of the definitions that use it. *)

From Stdlib Require Import Reals Lra Floats ZArith String Ascii List Bool Lia.
Import ListNotations.

Set Warnings "-inexact-float".

(** ** Partial results *)

Definition bind {A B : Type} (c : option A) (k : A -> option B) : option B :=
  match c with
  | Some a => k a
  | None => None
  end.

Declare Scope py_scope.
Delimit Scope py_scope with py.
Notation "x <- c ;; k" := (bind c (fun x => k))
  (at level 61, c at next level, right associativity) : py_scope.

(** ** The arithmetic the models use

    [fdiv] and [fpow] are partial: [None] is "the carrier assigns no
    value here" (a division by zero over [R]; a [pow] the C standard
    leaves to the library over [float], when no library is given). *)

Class Arith (A : Type) : Type := {
  fone : A;
  fadd : A -> A -> A;
  fsub : A -> A -> A;
  fmul : A -> A -> A;
  fneg : A -> A;
  fdiv : A -> A -> option A;
  fpow : A -> A -> option A;
  fle  : A -> A -> bool
}.

Section Models.
Context {A : Type} `{Arith A}.
Local Open Scope py_scope.

(** [np.where(c, a, b)] at one element: both [a] and [b] have been
    evaluated, and the element is taken from the one [c] selects. *)
Definition where_ (c : bool) (a b : option A) : option A :=
  if c then a else b.

(** def VG(x, qs, qr, alpha, n):
      se = 1. / ((1 + (alpha * x) ** n) ** (1 - 1.0 / n))
      return se * (qs - qr) + qr *)
Definition VG (x qs qr alpha n : A) : option A :=
  a  <- fpow (fmul alpha x) n ;;
  e  <- fdiv fone n ;;
  b  <- fpow (fadd fone a) (fsub fone e) ;;
  se <- fdiv fone b ;;
  Some (fadd (fmul se (fsub qs qr)) qr).

(** def Campbell(x, qs, he, b):
      return np.where(x <= he, qs, qs * (x / he) ** (-1.0 / b)) *)
Definition Campbell (x qs he b : A) : option A :=
  where_ (fle x he)
    (Some qs)
    (r <- fdiv x he ;;
     e <- fdiv (fneg fone) b ;;
     p <- fpow r e ;;
     Some (fmul qs p)).

(** def BC(x, qs, qr, lamda, sib):
      return np.where(x <= sib, qs, qr + (qs - qr) * (x / sib) ** (-lamda)) *)
Definition BC (x qs qr lamda sib : A) : option A :=
  where_ (fle x sib)
    (Some qs)
    (r <- fdiv x sib ;;
     p <- fpow r (fneg lamda) ;;
     Some (fadd qr (fmul (fsub qs qr) p))).

(** The models over an array of tensions, element by element. *)
Definition VG_array (xs : list A) (qs qr alpha n : A) : list (option A) :=
  map (fun x => VG x qs qr alpha n) xs.
Definition Campbell_array (xs : list A) (qs he b : A) : list (option A) :=
  map (fun x => Campbell x qs he b) xs.
Definition BC_array (xs : list A) (qs qr lamda sib : A) : list (option A) :=
  map (fun x => BC x qs qr lamda sib) xs.

(** The specification's Van Genuchten formula, in its words:
    effective saturation [Se = [1 + (alpha x)^n]^(-(1 - 1/n))],
    prediction [Se (qs - qr) + qr]. *)
Definition VG_spec (x qs qr alpha n : A) : option A :=
  a  <- fpow (fmul alpha x) n ;;
  e  <- fdiv fone n ;;
  Se <- fpow (fadd fone a) (fneg (fsub fone e)) ;;
  Some (fadd (fmul Se (fsub qs qr)) qr).
End Models.

(** ** Binary64 *)

Module B64.
Local Open Scope float_scope.

Definition is_pos_zero (x : float) : bool := PrimFloat.Leibniz.eqb x 0.
Definition is_pos_inf (x : float) : bool := PrimFloat.Leibniz.eqb x infinity.

(** The values of [pow] that C99 (Annex F.10.4.4) fixes and that the
    models reach: [pow(x, +-0) = 1] and [pow(+1, y) = 1] for every
    operand, a NaN included; a NaN operand otherwise gives a NaN;
    [pow(+0, y)] is [+0] for [y > 0] and [+inf] for [y < 0];
    [pow(+inf, y)] is [+inf] for [y > 0] and [+0] for [y < 0].
    Every other value is the library's, and the model leaves it open. *)
Definition pow (x y : float) : option float :=
  if y =? 0 then Some 1
  else if x =? 1 then Some 1
  else if is_nan x || is_nan y then Some nan
  else if is_pos_zero x then Some (if 0 <? y then 0 else infinity)
  else if is_pos_inf x then Some (if 0 <? y then infinity else 0)
  else None.

#[global] Instance float_arith : Arith float := {
  fone := 1;
  fadd := PrimFloat.add;
  fsub := PrimFloat.sub;
  fmul := PrimFloat.mul;
  fneg := PrimFloat.opp;
  fdiv := fun x y => Some (x / y);
  fpow := pow;
  fle  := PrimFloat.leb
}.

(** [pow] with a C library at hand: [libm_pow] is the library's
    function, consulted where the standard leaves the value to it. *)
Definition pow_of (libm_pow : float -> float -> float) (x y : float) : float :=
  match pow x y with
  | Some v => v
  | None => libm_pow x y
  end.

(** Binary64 arithmetic with that library: every operation has a value. *)
Definition libm_arith (libm_pow : float -> float -> float) : Arith float := {|
  fone := 1;
  fadd := PrimFloat.add;
  fsub := PrimFloat.sub;
  fmul := PrimFloat.mul;
  fneg := PrimFloat.opp;
  fdiv := fun x y => Some (x / y);
  fpow := fun x y => Some (pow_of libm_pow x y);
  fle  := PrimFloat.leb
|}.

(** def sig_symbol(p):
      if p > 0.05: return "ns"
      elif p > 0.01: return "*"
      elif p > 0.001: return "**"
      else: return "***" *)
Definition sig_symbol (p : float) : string :=
  if 0.05 <? p then "ns"%string
  else if 0.01 <? p then "*"%string
  else if 0.001 <? p then "**"%string
  else "***"%string.

(** The real number a finite binary64 value stands for (0 for the
    others): the mantissa times a power of two. *)
Definition value (x : float) : R :=
  match Prim2SF x with
  | S754_finite s m e =>
      ((if s then -1 else 1) * IZR (Zpos m) * powerRZ 2 e)%R
  | _ => 0%R
  end.
End B64.

(** ** Exact real arithmetic *)

Module Exact.
Local Open Scope R_scope.

Definition is_integer (y : R) : Prop := y = IZR (Int_part y).

Definition is_integer_dec (y : R) : {is_integer y} + {~ is_integer y} :=
  Req_dec_T y (IZR (Int_part y)).

Definition div (x y : R) : option R :=
  if Req_dec_T y 0 then None else Some (x / y).

(** [x ** y] where it is a real number: [1] for [y = 0];
    [exp (y * ln x)] for [x > 0]; [0] for [x = 0 < y]; the integer
    power for [x < 0] and [y] an integer.  No value for [0 ** y] with
    [y < 0] (a division by zero) and for a negative base with a
    fractional exponent (numpy's NaN). *)
Definition pow (x y : R) : option R :=
  if Req_dec_T y 0 then Some 1
  else if Rlt_dec 0 x then Some (Rpower x y)
  else if Req_dec_T x 0 then (if Rlt_dec 0 y then Some 0 else None)
  else if is_integer_dec y then Some (powerRZ x (Int_part y))
  else None.

Definition le (x y : R) : bool := if Rle_dec x y then true else false.

#[global] Instance real_arith : Arith R := {
  fone := 1;
  fadd := Rplus;
  fsub := Rminus;
  fmul := Rmult;
  fneg := Ropp;
  fdiv := div;
  fpow := pow;
  fle  := le
}.
End Exact.

(** ** Text

    A Python [str] is a sequence of Unicode code points. *)

Abbreviation char := N (only parsing).
Abbreviation str := (list N) (only parsing).

(** A literal of the source (its literals are ASCII text): the
    characters, each by its code point. *)
Definition lit (s : string) : str := map N_of_ascii (list_ascii_of_string s).

(** [a == b] *)
Fixpoint str_eqb (a b : str) : bool :=
  match a, b with
  | [], [] => true
  | x :: a', y :: b' => N.eqb x y && str_eqb a' b'
  | _, _ => false
  end.

(** [s.startswith(sep)] *)
Fixpoint startswith (sep s : str) : bool :=
  match sep, s with
  | [], _ => true
  | x :: sep', y :: s' => N.eqb x y && startswith sep' s'
  | _ :: _, [] => false
  end.

(** [sep.join(pieces)] *)
Fixpoint join (sep : str) (pieces : list str) : str :=
  match pieces with
  | [] => []
  | [piece] => piece
  | piece :: rest => piece ++ sep ++ join sep rest
  end.

(** ** Exceptions

    [except Exception] catches every instance of [Exception] and of its
    subclasses (ValueError, IndexError, ZeroDivisionError,
    FloatingPointError, OverflowError, RuntimeError, TypeError, ...);
    KeyboardInterrupt and SystemExit derive from BaseException only. *)

Inductive exn : Type :=
  | Exception_ (cls : string) (msg : str)
  | BaseException_ (cls : string).

Inductive res (T : Type) : Type :=
  | Ret (v : T)
  | Raise (e : exn).
Arguments Ret {T} v.
Arguments Raise {T} e.

Definition rbind {T U : Type} (c : res T) (k : T -> res U) : res U :=
  match c with
  | Ret v => k v
  | Raise e => Raise e
  end.

Declare Scope res_scope.
Delimit Scope res_scope with res.
Notation "x <- c ;; k" := (rbind c (fun x => k))
  (at level 61, c at next level, right associativity) : res_scope.

(** [[f(x) for x in l]]: the elements are read in order and the first
    exception ends the comprehension. *)
Fixpoint traverse {T U : Type} (f : T -> res U) (l : list T) : res (list U) :=
  match l with
  | [] => Ret []
  | x :: rest => (v <- f x ;; vs <- traverse f rest ;; Ret (v :: vs))%res
  end.

(** The exception of [l[i]] past the end of a list. *)
Definition IndexError : exn :=
  Exception_ "IndexError" (lit "list index out of range").

(** ** The interpreter

    What the interpreter decides and the source does not: the Unicode
    character database, consulted for the characters beyond ASCII
    (those of ASCII have the same properties in every version), and
    the message of the ValueError that [list.index] raises for a value
    that is not in the list. *)

Record interpreter : Type := {
  unicode_digit : char -> bool;
  unicode_space : char -> bool;
  not_in_list : str -> str
}.

(** ** Column extraction

    The table is [in_file_data]: the rows of the file, each split at the
    delimiter, the header first. *)

Section Columns.
Local Open Scope res_scope.

Variable py : interpreter.

(** The builtin [float] on a text: the number read, or the exception
    raised. *)
Variable python_float : str -> res float.

Definition dot : char := 46%N.

(** [c.isdigit()]: '0' to '9' in ASCII; beyond, the characters that
    the database gives the numeric type Digit or Decimal. *)
Definition is_digit (c : char) : bool :=
  if (c <? 128)%N then ((48 <=? c) && (c <=? 57))%N else unicode_digit py c.

Fixpoint all_digits (s : str) : bool :=
  match s with
  | [] => true
  | c :: s' => is_digit c && all_digits s'
  end.

(** [s.isdigit()]: every character is a digit and there is at least one. *)
Definition isdigit (s : str) : bool :=
  match s with
  | [] => false
  | _ :: _ => all_digits s
  end.

(** [s.replace('.', '', 1)]: the first dot, if any, is removed. *)
Fixpoint replace_first_dot (s : str) : str :=
  match s with
  | [] => []
  | c :: s' => if N.eqb c dot then s' else c :: replace_first_dot s'
  end.

(** The filter of the comprehension:
    [row[idx].replace('.', '', 1).isdigit()]. *)
Definition keeps (cell : str) : bool := isdigit (replace_first_dot cell).

(** "Digits with at most one decimal point": every character is a
    digit or a dot, at most one is a dot, at least one is a digit. *)
Fixpoint digits_or_dots (s : str) : bool :=
  match s with
  | [] => true
  | c :: s' => (is_digit c || N.eqb c dot) && digits_or_dots s'
  end.

Fixpoint count_dots (s : str) : nat :=
  match s with
  | [] => 0
  | c :: s' => (if N.eqb c dot then 1 else 0) + count_dots s'
  end.

Fixpoint has_digit (s : str) : bool :=
  match s with
  | [] => false
  | c :: s' => is_digit c || has_digit s'
  end.

Definition plain_decimal (s : str) : bool :=
  digits_or_dots s && (count_dots s <=? 1)%nat && has_digit s.

(** [l[i]] *)
Definition getitem {T : Type} (l : list T) (i : nat) : res T :=
  match nth_error l i with
  | Some v => Ret v
  | None => Raise IndexError
  end.

(** [l.index(col)] *)
Fixpoint index (col : str) (l : list str) : res nat :=
  match l with
  | [] => Raise (Exception_ "ValueError" (not_in_list py col))
  | h :: t =>
      if str_eqb h col then Ret 0 else i <- index col t ;; Ret (S i)
  end.

(** [[float(row[idx]) for row in rows if keeps(row[idx])]]: row by row,
    the cell is taken, tested and, when kept, read by [float]. *)
Fixpoint column_values (idx : nat) (rows : list (list str)) : res (list float) :=
  match rows with
  | [] => Ret []
  | row :: rest =>
      cell <- getitem row idx ;;
      if keeps cell
      then v <- python_float cell ;;
           vs <- column_values idx rest ;;
           Ret (v :: vs)
      else column_values idx rest
  end.

(** def return_column(self, col):
      idx = self.in_file_data[0].index(col)
      return np.array([float(row[idx]) for row in self.in_file_data[1:]
                       if row[idx].replace('.', '', 1).isdigit()]) *)
Definition return_column (in_file_data : list (list str)) (col : str)
  : res (list float) :=
  header <- getitem in_file_data 0 ;;
  idx <- index col header ;;
  column_values idx (tl in_file_data).
End Columns.

(** The cells of a column, a missing cell read as the empty text. *)
Definition column_cells (idx : nat) (rows : list (list str)) : list str :=
  map (fun row => nth idx row []) rows.

(** ** The fit driver *)

(** The model function handed to [curve_fit]. *)
Inductive model_fn : Type := fn_VG | fn_Campbell | fn_BC.

(** What the window holds when the run button is pressed: the table,
    the three selections and the eight entries of initial values. *)
Record gui : Type := {
  in_file_data : list (list str);
  sand_select : str;
  silt_select : str;
  model_select : str;
  qs : str;
  qr : str;
  alpha : str;
  n : str;
  lamda : str;
  sib : str;
  he : str;
  Campbell_b : str
}.

(** The pieces of a formatted string: its literal text and the values
    it formats. *)
Inductive piece : Type :=
  | Text (s : string)
  | Array (v : list float)
  | Matrix (m : list (list float)).

Inductive event : Type :=
  | showwarning (title : string) (message : str)
  | write (file_path : str) (text : list piece)
  | plot (label : str) (tension water : list float) (popt : list float).

Definition nl : string := String (ascii_of_nat 10) EmptyString.

(** f"Fitted Params: {popt}\nCovariance:\n{pcov}\n" *)
Definition report (popt : list float) (pcov : list (list float)) : list piece :=
  [Text "Fitted Params: "; Array popt;
   Text (nl ++ "Covariance:" ++ nl); Matrix pcov; Text nl].

(** The values a formatted string carries. *)
Definition formatted (text : list piece) : list piece :=
  filter (fun p => match p with Text _ => false | _ => true end) text.

Definition is_write (e : event) : bool :=
  match e with write _ _ => true | _ => false end.

Section Curve.
Local Open Scope res_scope.

(** The collaborators of [curve]: the interpreter; the builtin [float]
    on the text of a cell or of an entry; scipy's [curve_fit] (model
    function, xdata, ydata, p0; it returns [popt, pcov] or raises); the
    path the save dialog returns (empty when it is cancelled); and
    matplotlib's calls on the data and the fitted curve, with the
    exception they raise, if any.  The file system is taken to accept
    the write. *)
Variable py : interpreter.
Variable python_float : str -> res float.
Variable curve_fit :
  model_fn -> list float -> list float -> list float ->
  res (list float * list (list float)).
Variable asksaveasfilename : str.
Variable pyplot : str -> list float -> list float -> list float -> option exn.

(** The body of the [try]: the initial values are read left to right,
    then [curve_fit] is called. *)
Definition fit_try (g : gui) (tension water : list float)
  : res (list float * list (list float)) :=
  if str_eqb (model_select g) (lit "Van Genuchten Model") then
    a <- python_float (qs g) ;; b <- python_float (qr g) ;;
    c <- python_float (alpha g) ;; d <- python_float (n g) ;;
    curve_fit fn_VG tension water [a; b; c; d]
  else if str_eqb (model_select g) (lit "Camopbell Model") then
    a <- python_float (qs g) ;; b <- python_float (he g) ;;
    c <- python_float (Campbell_b g) ;;
    curve_fit fn_Campbell tension water [a; b; c]
  else
    a <- python_float (qs g) ;; b <- python_float (qr g) ;;
    c <- python_float (lamda g) ;; d <- python_float (sib g) ;;
    curve_fit fn_BC tension water [a; b; c; d].

(** The [try ... except Exception as e] around it. *)
Inductive fit_outcome : Type :=
  | fit_done (popt : list float) (pcov : list (list float))
  | fit_error (message : str)
  | fit_escaped (e : exn).

Definition fit_guarded (g : gui) (tension water : list float) : fit_outcome :=
  match fit_try g tension water with
  | Ret (popt, pcov) => fit_done popt pcov
  | Raise (Exception_ _ msg) => fit_error msg
  | Raise (BaseException_ cls) => fit_escaped (BaseException_ cls)
  end.

(** After a fit: the report is written when a path was chosen, then
    the data and the curve over [min(tension), max(tension)] are
    plotted; [min] of an empty sequence raises. *)
Definition save_and_plot (g : gui) (tension water : list float)
    (popt : list float) (pcov : list (list float))
  : list event * option exn :=
  let saved :=
    if str_eqb asksaveasfilename (lit "") then []
    else [write asksaveasfilename (report popt pcov)] in
  match tension with
  | [] =>
      (saved,
       Some (Exception_ "ValueError" (lit "min() arg is an empty sequence")))
  | _ :: _ =>
      (saved ++ [plot (model_select g) tension water popt],
       pyplot (model_select g) tension water popt)
  end.

(** def curve(self): the events of one run, in order, and the
    exception that left it, if any. *)
Definition curve (g : gui) : list event * option exn :=
  match in_file_data g with
  | [] => ([showwarning " Warning" (lit "Please choose a file")], None)
  | _ :: _ =>
    match return_column py python_float (in_file_data g) (sand_select g) with
    | Raise e => ([], Some e)
    | Ret water =>
      match return_column py python_float (in_file_data g) (silt_select g) with
      | Raise e => ([], Some e)
      | Ret tension =>
        if str_eqb (model_select g) (lit "") then
          ([showwarning " Warning" (lit "Please select a model")], None)
        else
          match fit_guarded g tension water with
          | fit_error msg => ([showwarning " Fit Error" msg], None)
          | fit_escaped e => ([], Some e)
          | fit_done popt pcov => save_and_plot g tension water popt pcov
          end
      end
    end
  end.
End Curve.

(** A table written as the text of its cells. *)
Definition table (rows : list (list string)) : list (list str) :=
  map (map lit) rows.

(** The window as [__init__] builds it: no table, nothing selected, the
    default initial values. *)
Definition new_window : gui := {|
  in_file_data := [];
  sand_select := lit "";
  silt_select := lit "";
  model_select := lit "";
  qs := lit "0.5";
  qr := lit "0.2";
  alpha := lit "0.01";
  n := lit "2";
  lamda := lit "1";
  sib := lit "15";
  he := lit "1";
  Campbell_b := lit "4"
|}.

(** The window after a table is loaded, the columns and a model are
    selected, and [he] is typed in. *)
Definition window (data : list (list str)) (sand silt model he_text : string)
  : gui := {|
  in_file_data := data;
  sand_select := lit sand;
  silt_select := lit silt;
  model_select := lit model;
  qs := qs new_window;
  qr := qr new_window;
  alpha := alpha new_window;
  n := n new_window;
  lamda := lamda new_window;
  sib := sib new_window;
  he := lit he_text;
  Campbell_b := Campbell_b new_window
|}.

(** Two small tables with columns "water" and "tension".  In the first
    the second row's tension is negative; in the second a later row has
    a tension and no water content. *)
Definition table_unequal : list (list str) :=
  table [["water"; "tension"]; ["0.3"; "10"]; ["0.2"; "-5"]]%string.

Definition table_shifted : list (list str) :=
  table [["water"; "tension"]; ["0.3"; "10"]; ["0.2"; "-5"]; [""; "100"]]%string.

(** ** Loading a file

    [load_file] reads the lines of the file, strips each and splits it
    at the delimiter: the text of the delimiter entry without its first
    and last character (the entry shows the delimiter between quotes). *)

Section Loading.
Local Open Scope res_scope.

Variable py : interpreter.

(** [c.isspace()]: in ASCII the tab, the line and page breaks, the four
    separators and the space; beyond, what the database says. *)
Definition is_space (c : char) : bool :=
  if (c <? 128)%N
  then (((9 <=? c) && (c <=? 13)) || ((28 <=? c) && (c <=? 32)))%N
  else unicode_space py c.

Fixpoint lstrip (s : str) : str :=
  match s with
  | [] => []
  | c :: s' => if is_space c then lstrip s' else s
  end.

Fixpoint rstrip (s : str) : str :=
  match s with
  | [] => []
  | c :: s' =>
      match rstrip s' with
      | [] => if is_space c then [] else [c]
      | d :: r => c :: d :: r
      end
  end.

(** [s.strip()] *)
Definition strip (s : str) : str := rstrip (lstrip s).

Fixpoint drop_last (s : str) : str :=
  match s with
  | [] => []
  | [c] => []
  | c :: s' => c :: drop_last s'
  end.

(** [s[1:-1]] *)
Definition slice_1_m1 (s : str) : str :=
  match s with
  | [] => []
  | _ :: s' => drop_last s'
  end.

(** [s.split(sep)] for a non-empty [sep]: the text is cut at the
    occurrences of [sep], found left to right without overlap.  [skip]
    counts the characters of an occurrence still to pass, [cur] is the
    piece being read. *)
Fixpoint split_from (sep s : str) (skip : nat) (cur : str) : list str :=
  match s with
  | [] => [cur]
  | c :: s' =>
      match skip with
      | S k => split_from sep s' k cur
      | O =>
          if startswith sep s
          then cur :: split_from sep s' (length sep - 1) []
          else split_from sep s' 0 (cur ++ [c])
      end
  end.

Definition split (sep s : str) : res (list str) :=
  match sep with
  | [] => Raise (Exception_ "ValueError" (lit "empty separator"))
  | _ :: _ => Ret (split_from sep s 0 [])
  end.

(** [[row.strip().split(sep) for row in lines]] *)
Fixpoint split_rows (sep : str) (lines : list str) : res (list (list str)) :=
  match lines with
  | [] => Ret []
  | row :: rest =>
      cells <- split sep (strip row) ;;
      data <- split_rows sep rest ;;
      Ret (cells :: data)
  end.

(** What [load_file] changes: the table, the file name shown, and the
    values offered by the two column selectors. *)
Record files : Type := {
  loaded_data : list (list str);
  in_file : str;
  sand_values : list str;
  silt_values : list str
}.

(** [open(filename, 'r')] followed by [readlines()]: the lines of the
    file, or the exception raised. *)
Variable readlines : str -> res (list str).

(** def load_file(self, filename): the state after the call, the
    events, and the exception that left it, if any.  The table is
    assigned before the header is read, so an empty file leaves an
    empty table behind. *)
Definition load_file (st : files) (input_delimiter_str filename : str)
  : files * list event * option exn :=
  match
    lines <- readlines filename ;;
    split_rows (slice_1_m1 input_delimiter_str) lines
  with
  | Raise (Exception_ _ msg) => (st, [showwarning " Error" msg], None)
  | Raise (BaseException_ cls) => (st, [], Some (BaseException_ cls))
  | Ret data =>
      match data with
      | [] =>
          ({| loaded_data := [];
              in_file := in_file st;
              sand_values := sand_values st;
              silt_values := silt_values st |},
           [showwarning " Error" (lit "list index out of range")], None)
      | headers :: _ =>
          ({| loaded_data := data;
              in_file := filename;
              sand_values := headers;
              silt_values := headers |}, [], None)
      end
  end.

(** def choose_file(self): [f] is the path the open dialog returns,
    empty when it is cancelled. *)
Definition choose_file (st : files) (input_delimiter_str f : str)
  : files * list event * option exn :=
  match f with
  | [] => (st, [], None)
  | _ :: _ => load_file st input_delimiter_str f
  end.
End Loading.

(** The delimiter entry as [__init__] fills it: a comma between two
    double quotes. *)
Definition default_delimiter : str := [34; 44; 34]%N.

(** The state [__init__] leaves: no table, no file name, no column
    offered. *)
Definition no_file : files := {|
  loaded_data := [];
  in_file := lit "";
  sand_values := [];
  silt_values := []
|}.

(** ** An interpreter to run the examples with *)

(** [repr] of a text as CPython writes it: between single quotes, or
    between double quotes when the text holds a single quote and no
    double one; the quote in use and the backslash escaped, the tab and
    the line ends by their letters, the other characters that are not
    printable by their code in hexadecimal. *)
Definition hex_digit (d : N) : char :=
  if (d <? 10)%N then (48 + d)%N else (87 + d)%N.

Fixpoint hex (width : nat) (c : N) : str :=
  match width with
  | O => []
  | S w => hex w (c / 16)%N ++ [hex_digit (c mod 16)%N]
  end.

Definition repr_char (printable : char -> bool) (quote c : char) : str :=
  (if (c =? quote) || (c =? 92) then [92; c]
   else if c =? 9 then [92; 116]
   else if c =? 10 then [92; 110]
   else if c =? 13 then [92; 114]
   else if (c <? 32) || (c =? 127) then 92 :: 120 :: hex 2 c
   else if c <? 127 then [c]
   else if printable c then [c]
   else if c <=? 255 then 92 :: 120 :: hex 2 c
   else if c <=? 65535 then 92 :: 117 :: hex 4 c
   else 92 :: 85 :: hex 8 c)%N.

Definition repr (printable : char -> bool) (s : str) : str :=
  let quote :=
    if existsb (N.eqb 39) s && negb (existsb (N.eqb 34) s) then 34%N else 39%N in
  quote :: flat_map (repr_char printable quote) s ++ [quote].

(** An interpreter that knows the characters of Latin-1: the
    superscripts two, three and one are digits; the next-line control
    and the no-break space are spaces; the controls, the no-break space
    and the soft hyphen are not printable.  Beyond Latin-1 it takes no
    character for a digit or a space, and every character for
    printable.  Its message for [list.index] is that of CPython 3.11:
    the [repr] of the value, then " is not in list". *)
Definition latin1_printable (c : char) : bool :=
  negb (((128 <=? c) && (c <=? 160)) || (c =? 173))%N.

Definition sample_interpreter : interpreter := {|
  unicode_digit := fun c => ((c =? 178) || (c =? 179) || (c =? 185))%N;
  unicode_space := fun c => ((c =? 133) || (c =? 160))%N;
  not_in_list := fun x => repr latin1_printable x ++ lit " is not in list"
|}.

(** [float] on the numerals of the examples; any other text is refused
    the way [float] refuses a text that is no number. *)
Definition sample_float (s : str) : res float :=
  if str_eqb s (lit "0.3") then Ret 0.3%float
  else if str_eqb s (lit "0.2") then Ret 0.2%float
  else if str_eqb s (lit "0.5") then Ret 0.5%float
  else if str_eqb s (lit "0.01") then Ret 0.01%float
  else if str_eqb s (lit "0") then Ret 0%float
  else if str_eqb s (lit "1") then Ret 1%float
  else if str_eqb s (lit "2") then Ret 2%float
  else if str_eqb s (lit "4") then Ret 4%float
  else if str_eqb s (lit "10") then Ret 10%float
  else if str_eqb s (lit "15") then Ret 15%float
  else if str_eqb s (lit "100") then Ret 100%float
  else Raise (Exception_ "ValueError"
                (lit "could not convert string to float: " ++
                 repr latin1_printable s)).

(** A small file system: a table of two columns whose third line is
    blank, a file with no line, and nothing else. *)
Definition example_disk (filename : str) : res (list str) :=
  if str_eqb filename (lit "curve.csv")
  then Ret (map (fun l => lit l ++ [10%N])
              ["water,tension"; "0.3,10"; "  "; "0.2,-5"]%string)
  else if str_eqb filename (lit "empty.csv") then Ret []
  else Raise (Exception_ "FileNotFoundError" (lit "No such file or directory")).

(** [sep in piece]: the text [sep] occurs somewhere in [piece]. *)
Definition occurs_in (sep piece : str) : Prop :=
  exists a b, piece = a ++ sep ++ b.

(** While a line is split: no occurrence of the separator starts inside
    the piece [cur] being read, [s] being the text still to read. *)
Definition no_start_inside (sep cur s : str) : Prop :=
  forall a b, cur = a ++ b -> b <> [] -> startswith sep (b ++ s) = false.

(** Text made of whitespace only. *)
Definition all_space (py : interpreter) (s : str) : bool :=
  forallb (is_space py) s.

(** Text with no whitespace at either end. *)
Definition bare (py : interpreter) (s : str) : bool :=
  match s with
  | [] => true
  | c :: _ => negb (is_space py c) && negb (is_space py (last s c))
  end.

(** The number of stars of a significance symbol: none for "ns". *)
Definition stars (symbol : string) : nat :=
  if String.eqb symbol "ns" then 0 else String.length symbol.

(** ** Proof tactics *)

(** Case analysis on the integer and positive comparisons inside
    [SFcompare]. *)
Ltac by_compare :=
  repeat match goal with
  | H : context [(?a ?= ?b)%Z] |- _ => destruct (Z.compare_spec a b)
  | |- context [(?a ?= ?b)%Z] => destruct (Z.compare_spec a b)
  | H : context [Pos.compare_cont Eq ?a ?b] |- _ =>
      change (Pos.compare_cont Eq a b) with (a ?= b)%positive in H
  | |- context [Pos.compare_cont Eq ?a ?b] =>
      change (Pos.compare_cont Eq a b) with (a ?= b)%positive
  | H : context [(?a ?= ?b)%positive] |- _ => destruct (Pos.compare_spec a b)
  | |- context [(?a ?= ?b)%positive] => destruct (Pos.compare_spec a b)
  end;
  cbn [CompOpp] in *; try discriminate; try reflexivity; try lia.

(** The operations of the exact carrier, unfolded to those of [R]. *)
Ltac exact_ops :=
  cbn [fpow fmul fadd fsub fdiv fone fneg fle Exact.real_arith bind where_] in *.

(** The disjunction that an event is among those of a concrete run. *)
Ltac in_events Hin :=
  cbn [fst snd In app] in Hin;
  repeat match type of Hin with
  | _ \/ _ => destruct Hin as [Hin|Hin]
  | False => destruct Hin
  end; try discriminate Hin.

(** ** The order of binary64

    The comparisons are the kernel's; their laws are read off the
    specification [SFcompare] of the primitive operations. *)

Module B64Order.
Local Open Scope float_scope.

Lemma SFcompare_swap (x y : spec_float) :
  SFcompare y x = option_map CompOpp (SFcompare x y).
Proof.
  destruct x as [sx|sx| |sx mx ex], y as [sy|sy| |sy my ey];
    try destruct sx; try destruct sy; try reflexivity;
    cbn [SFcompare option_map];
    rewrite (Z.compare_antisym ex ey);
    destruct (ex ?= ey)%Z; cbn [CompOpp]; try reflexivity;
    change (Pos.compare_cont Eq my mx) with (my ?= mx)%positive;
    change (Pos.compare_cont Eq mx my) with (mx ?= my)%positive;
    rewrite (Pos.compare_antisym mx my); try reflexivity;
    destruct (mx ?= my)%positive; reflexivity.
Qed.

Lemma ltb_leb_false (x y : float) : (y <? x) = true -> (x <=? y) = false.
Proof.
  rewrite FloatAxioms.ltb_spec, FloatAxioms.leb_spec. unfold SFltb, SFleb.
  rewrite (SFcompare_swap (Prim2SF x) (Prim2SF y)).
  destruct (SFcompare (Prim2SF x) (Prim2SF y)) as [[]|]; cbn; congruence.
Qed.

Lemma leb_ltb_false (x y : float) : (x <=? y) = true -> (y <? x) = false.
Proof.
  intros Hle. destruct (y <? x) eqn:Hlt; [|reflexivity].
  apply ltb_leb_false in Hlt. congruence.
Qed.

Lemma eqb_leb (x y : float) : (x =? y) = true -> (x <=? y) = true.
Proof.
  rewrite FloatAxioms.eqb_spec, FloatAxioms.leb_spec. unfold SFeqb, SFleb.
  destruct (SFcompare (Prim2SF x) (Prim2SF y)) as [[]|]; congruence.
Qed.

Lemma ltb_leb (x y : float) : (x <? y) = true -> (x <=? y) = true.
Proof.
  rewrite FloatAxioms.ltb_spec, FloatAxioms.leb_spec. unfold SFltb, SFleb.
  destruct (SFcompare (Prim2SF x) (Prim2SF y)) as [[]|]; congruence.
Qed.

Lemma SFleb_SFltb_trans (x y z : spec_float) :
  SFleb x y = true -> SFltb y z = true -> SFltb x z = true.
Proof.
  unfold SFleb, SFltb.
  destruct x as [sx|sx| |sx mx ex], y as [sy|sy| |sy my ey],
           z as [sz|sz| |sz mz ez];
    try destruct sx; try destruct sy; try destruct sz;
    cbn [SFcompare]; intros Hxy Hyz;
    try discriminate; try reflexivity; by_compare.
Qed.

Lemma leb_ltb_trans (x y z : float) :
  (x <=? y) = true -> (y <? z) = true -> (x <? z) = true.
Proof. rewrite FloatAxioms.leb_spec, !FloatAxioms.ltb_spec. apply SFleb_SFltb_trans. Qed.

Lemma ltb_not_eqb (x y : float) : (x <? y) = true -> (y =? x) = false.
Proof.
  rewrite FloatAxioms.ltb_spec, FloatAxioms.eqb_spec. unfold SFltb, SFeqb.
  rewrite (SFcompare_swap (Prim2SF x) (Prim2SF y)).
  destruct (SFcompare (Prim2SF x) (Prim2SF y)) as [[]|]; cbn; congruence.
Qed.

Lemma SFcompare_refl (x : spec_float) :
  x <> S754_nan -> SFcompare x x = Some Eq.
Proof.
  destruct x as [s|s| |s m e]; intros Hx; try destruct s;
    try reflexivity; try contradiction; cbn [SFcompare];
    rewrite Z.compare_refl;
    change (Pos.compare_cont Eq m m) with (m ?= m)%positive;
    now rewrite Pos.compare_refl.
Qed.

Lemma ltb_not_nan (x y : float) : (x <? y) = true -> is_nan y = false.
Proof.
  unfold is_nan. rewrite FloatAxioms.ltb_spec, FloatAxioms.eqb_spec.
  unfold SFltb, SFeqb. intros Hlt.
  rewrite SFcompare_refl; [reflexivity|].
  intros Hnan. rewrite Hnan in Hlt.
  destruct (Prim2SF x); discriminate.
Qed.

Lemma leb_below (x a b : float) :
  (x <=? a) = true -> (a <? b) = true -> (b <? x) = false.
Proof.
  intros Hxa Hab. apply leb_ltb_false, ltb_leb.
  exact (leb_ltb_trans _ _ _ Hxa Hab).
Qed.
End B64Order.

(** ** Facts of the exact carrier *)

Module ExactFacts.
Import Exact.
Local Open Scope R_scope.

Lemma le_true (x y : R) : x <= y -> le x y = true.
Proof. intros Hxy. unfold le. destruct (Rle_dec x y); [reflexivity | lra]. Qed.

Lemma le_false (x y : R) : y < x -> le x y = false.
Proof. intros Hxy. unfold le. destruct (Rle_dec x y); [lra | reflexivity]. Qed.

Lemma div_defined (x y : R) : y <> 0 -> div x y = Some (x / y).
Proof. intros Hy. unfold div. destruct (Req_dec_T y 0); [contradiction | reflexivity]. Qed.

Lemma div_by_zero (x : R) : div x 0 = None.
Proof. unfold div. destruct (Req_dec_T 0 0); [reflexivity | lra]. Qed.

Lemma Rpower_one (y : R) : Rpower 1 y = 1.
Proof. unfold Rpower. rewrite ln_1, Rmult_0_r. apply exp_0. Qed.

Lemma Rpower_pos (x y : R) : 0 < Rpower x y.
Proof. unfold Rpower. apply exp_pos. Qed.

Lemma pow_pos (x y : R) : 0 < x -> pow x y = Some (Rpower x y).
Proof.
  intros Hx. unfold pow. destruct (Req_dec_T y 0) as [-> | Hy].
  - now rewrite Rpower_O.
  - destruct (Rlt_dec 0 x); [reflexivity | contradiction].
Qed.

Lemma pow_zero_base (y : R) : 0 < y -> pow 0 y = Some 0.
Proof.
  intros Hy. unfold pow.
  destruct (Req_dec_T y 0); [lra|].
  destruct (Rlt_dec 0 0); [lra|].
  destruct (Req_dec_T 0 0); [|lra].
  destruct (Rlt_dec 0 y); [reflexivity | contradiction].
Qed.

Lemma pow_zero_base_neg (y : R) : y < 0 -> pow 0 y = None.
Proof.
  intros Hy. unfold pow.
  destruct (Req_dec_T y 0); [lra|].
  destruct (Rlt_dec 0 0); [lra|].
  destruct (Req_dec_T 0 0); [|lra].
  destruct (Rlt_dec 0 y); [lra | reflexivity].
Qed.

(** No integer lies strictly between two consecutive integers. *)
Lemma not_integer_between (k : Z) (y : R) :
  IZR k < y < IZR (k + 1) -> ~ is_integer y.
Proof.
  intros [Hlo Hhi] Hint. unfold is_integer in Hint.
  rewrite Hint in Hlo, Hhi.
  apply lt_IZR in Hlo, Hhi. lia.
Qed.

Lemma pow_neg_base_fractional (k : Z) (x y : R) :
  x < 0 -> IZR k < y < IZR (k + 1) -> pow x y = None.
Proof.
  intros Hx Hy. unfold pow.
  destruct (Req_dec_T y 0) as [-> | _].
  - destruct Hy as [Hlo Hhi]. apply lt_IZR in Hlo, Hhi. lia.
  - destruct (Rlt_dec 0 x); [lra|].
    destruct (Req_dec_T x 0); [lra|].
    destruct (is_integer_dec y) as [Hint | _]; [|reflexivity].
    now apply (not_integer_between k y) in Hint.
Qed.

(** On a non-negative base a positive power is defined, non-negative,
    and monotone in the base. *)
Lemma pow_nonneg_base (u n : R) :
  0 <= u -> 0 < n -> exists a, pow u n = Some a /\ 0 <= a.
Proof.
  intros [Hu | <-] Hn.
  - exists (Rpower u n). split; [now apply pow_pos | left; apply Rpower_pos].
  - exists 0. split; [now apply pow_zero_base | lra].
Qed.

End ExactFacts.

(** ** The model functions in exact arithmetic *)

Section ExactModels.
Import Exact ExactFacts.
Local Open Scope R_scope.

Lemma exponent_in_unit (n : R) : 1 < n -> 0 < 1 - 1 / n < 1.
Proof.
  intros Hn. assert (0 < / n) by (apply Rinv_0_lt_compat; lra).
  assert (/ n < 1) by (rewrite <- Rinv_1; apply Rinv_lt_contravar; lra).
  unfold Rdiv. lra.
Qed.

(** In exact arithmetic, for n > 1 and alpha > 0, the code's Van
    Genuchten function and the specification's formula are the same
    partial function of the tension (both without a value at the same
    tensions), and at a positive tension both are
    [(1 + (alpha x)^n)^(-(1 - 1/n)) * (qs - qr) + qr]. *)
Lemma VG_exact_is_spec_formula (x qs qr alpha n : R) :
  1 < n -> 0 < alpha ->
  VG x qs qr alpha n = VG_spec x qs qr alpha n /\
  (0 < x ->
   VG x qs qr alpha n =
   Some (Rpower (1 + Rpower (alpha * x) n) (- (1 - 1 / n)) * (qs - qr) + qr)).
Proof.
  intros Hn Ha.
  pose proof (exponent_in_unit n Hn) as Hb.
  assert (Hcore : forall a,
    (b <- pow (1 + a) (1 - 1 / n) ;; se <- div 1 b ;;
     Some (se * (qs - qr) + qr))%py =
    (Se <- pow (1 + a) (- (1 - 1 / n)) ;; Some (Se * (qs - qr) + qr))%py).
  { intros a. destruct (Rtotal_order (1 + a) 0) as [Hneg | [Hz | Hpos]].
    - rewrite (pow_neg_base_fractional 0 (1 + a) (1 - 1 / n)) by (simpl; lra).
      rewrite (pow_neg_base_fractional (-1) (1 + a) (- (1 - 1 / n)))
        by (simpl; lra).
      reflexivity.
    - rewrite Hz, pow_zero_base, pow_zero_base_neg by lra.
      cbn [bind]. now rewrite div_by_zero.
    - rewrite !pow_pos by assumption. cbn [bind].
      pose proof (Rpower_pos (1 + a) (1 - 1 / n)) as Hp.
      rewrite div_defined by lra. cbn [bind].
      rewrite Rpower_Ropp. unfold Rdiv. now rewrite Rmult_1_l. }
  split.
  - unfold VG, VG_spec. exact_ops.
    destruct (pow (alpha * x) n) as [a|]; [|reflexivity]. cbn [bind].
    rewrite div_defined by lra. cbn [bind]. apply Hcore.
  - intros Hx. unfold VG. exact_ops.
    assert (0 < alpha * x) by (apply Rmult_lt_0_compat; assumption).
    rewrite pow_pos by assumption. cbn [bind].
    rewrite div_defined by lra. cbn [bind].
    rewrite Hcore.
    rewrite pow_pos by (pose proof (Rpower_pos (alpha * x) n); lra).
    reflexivity.
Qed.

Lemma Campbell_branches (x qs he b : R) :
  0 < he -> b <> 0 ->
  (x <= he -> Campbell x qs he b = Some qs) /\
  (he < x -> Campbell x qs he b = Some (qs * Rpower (x / he) (- (1) / b))).
Proof.
  intros Hhe Hb. unfold Campbell. exact_ops. split.
  - intros Hx. now rewrite le_true.
  - intros Hx. rewrite le_false by assumption.
    rewrite !div_defined by lra. cbn [bind].
    rewrite pow_pos by (apply Rdiv_lt_0_compat; lra).
    reflexivity.
Qed.

Lemma BC_branches (x qs qr lamda sib : R) :
  0 < sib ->
  (x <= sib -> BC x qs qr lamda sib = Some qs) /\
  (sib < x ->
   BC x qs qr lamda sib = Some (qr + (qs - qr) * Rpower (x / sib) (- lamda))).
Proof.
  intros Hs. unfold BC. exact_ops. split.
  - intros Hx. now rewrite le_true.
  - intros Hx. rewrite le_false by assumption.
    rewrite div_defined by lra. cbn [bind].
    rewrite pow_pos by (apply Rdiv_lt_0_compat; lra).
    reflexivity.
Qed.





Lemma VG_value (x qs qr alpha n : R) :
  0 < alpha -> 1 < n -> 0 <= x ->
  exists a, pow (alpha * x) n = Some a /\ 0 <= a /\
    VG x qs qr alpha n =
    Some (1 / Rpower (1 + a) (1 - 1 / n) * (qs - qr) + qr).
Proof.
  intros Ha Hn Hx.
  destruct (pow_nonneg_base (alpha * x) n) as (a & Hpa & Hpos);
    [apply Rmult_le_pos; lra | lra |].
  exists a. repeat split; try assumption.
  unfold VG. exact_ops. rewrite Hpa. cbn [bind].
  rewrite div_defined by lra. cbn [bind].
  rewrite pow_pos by lra. cbn [bind].
  rewrite div_defined by (pose proof (Rpower_pos (1 + a) (1 - 1 / n)); lra).
  reflexivity.
Qed.

Lemma Rpower_neg_le_one (r l : R) : 1 <= r -> 0 <= l -> Rpower r (- l) <= 1.
Proof.
  intros Hr Hl. rewrite Rpower_Ropp.
  assert (1 <= Rpower r l).
  { rewrite <- (Rpower_one l). apply Rle_Rpower_l; lra. }
  rewrite <- Rinv_1. apply Rinv_le_contravar; lra.
Qed.

Lemma Rpower_neg_antitone (r1 r2 l : R) :
  0 < r1 <= r2 -> 0 <= l -> Rpower r2 (- l) <= Rpower r1 (- l).
Proof.
  intros Hr Hl. rewrite !Rpower_Ropp.
  apply Rinv_le_contravar; [apply Rpower_pos | apply Rle_Rpower_l; lra].
Qed.


(** In exact arithmetic the Van Genuchten function at zero tension is
    qs for every n > 0 (whatever alpha, qs and qr), and it has no
    other value at any parameter vector. *)
Lemma VG_zero_tension_exact (qs qr alpha n : R) :
  (0 < n -> VG 0 qs qr alpha n = Some qs) /\
  (forall v, VG 0 qs qr alpha n = Some v -> v = qs).
Proof.
  assert (Hdef : 0 < n -> VG 0 qs qr alpha n = Some qs).
  { intros Hn. unfold VG. exact_ops.
    rewrite Rmult_0_r, pow_zero_base by assumption. cbn [bind].
    rewrite div_defined by lra. cbn [bind].
    rewrite Rplus_0_r, pow_pos, Rpower_one by lra. cbn [bind].
    rewrite div_defined by lra. cbn [bind].
    f_equal. field. }
  split; [exact Hdef|].
  intros v. destruct (Rtotal_order n 0) as [Hneg | [Hz | Hpos]].
  - unfold VG. exact_ops.
    rewrite Rmult_0_r, pow_zero_base_neg by assumption. discriminate.
  - subst n. unfold VG. exact_ops.
    destruct (pow (alpha * 0) 0); cbn [bind];
      try rewrite div_by_zero; discriminate.
  - rewrite Hdef by assumption. congruence.
Qed.
End ExactModels.

(** ** Text: equality and prefixes *)

Section TextFacts.

Lemma str_eqb_spec (a b : str) : reflect (a = b) (str_eqb a b).
Proof.
  revert b. induction a as [|x a IH]; intros [|y b]; cbn [str_eqb];
    try (constructor; congruence).
  destruct (N.eqb_spec x y) as [->|Hne]; cbn [andb].
  - destruct (IH b) as [->|Hne]; constructor; congruence.
  - constructor; congruence.
Qed.

Lemma str_eqb_refl (a : str) : str_eqb a a = true.
Proof. now destruct (str_eqb_spec a a). Qed.

Lemma startswith_append (sep s : str) :
  startswith sep s = true -> exists t, s = sep ++ t.
Proof.
  revert s. induction sep as [|c sep IH]; intros s Hp.
  - now exists s.
  - destruct s as [|d s]; [discriminate|]. cbn [startswith] in Hp.
    apply andb_prop in Hp. destruct Hp as [Hc Hp].
    apply N.eqb_eq in Hc. subst d.
    destruct (IH s Hp) as [t ->]. now exists t.
Qed.

Lemma startswith_of_append (sep t : str) : startswith sep (sep ++ t) = true.
Proof.
  induction sep as [|c sep IH]; [reflexivity|].
  cbn [startswith app]. now rewrite N.eqb_refl, IH.
Qed.
End TextFacts.

(** ** Column extraction: what is kept *)

Section ColumnFacts.
Variable py : interpreter.
Variable python_float : str -> res float.

Lemma dot_is_no_digit (c : char) : N.eqb c dot = true -> is_digit py c = false.
Proof. intros Hc. apply N.eqb_eq in Hc. now subst c. Qed.

Lemma all_digits_no_dots (s : str) :
  all_digits py s = digits_or_dots py s && (count_dots s =? 0)%nat.
Proof.
  induction s as [|c s IH]; [reflexivity|]. cbn.
  destruct (N.eqb c dot) eqn:Hc.
  - rewrite (dot_is_no_digit c Hc). cbn. now rewrite andb_false_r.
  - rewrite orb_false_r, IH. cbn. now rewrite andb_assoc.
Qed.

Lemma all_digits_replace (s : str) :
  all_digits py (replace_first_dot s) =
  digits_or_dots py s && (count_dots s <=? 1)%nat.
Proof.
  induction s as [|c s IH]; [reflexivity|]. cbn [replace_first_dot].
  destruct (N.eqb c dot) eqn:Hc.
  - cbn [digits_or_dots count_dots]. rewrite Hc, orb_true_r.
    rewrite all_digits_no_dots. cbn.
    destruct (count_dots s); reflexivity.
  - cbn [all_digits digits_or_dots count_dots]. rewrite Hc, IH, orb_false_r.
    cbn. now rewrite andb_assoc.
Qed.

Lemma has_digit_replace (s : str) :
  has_digit py (replace_first_dot s) = has_digit py s.
Proof.
  induction s as [|c s IH]; [reflexivity|]. cbn [replace_first_dot].
  destruct (N.eqb c dot) eqn:Hc.
  - cbn [has_digit]. now rewrite (dot_is_no_digit c Hc).
  - cbn [has_digit]. now rewrite IH.
Qed.

Lemma isdigit_alt (s : str) : isdigit py s = all_digits py s && has_digit py s.
Proof.
  destruct s as [|c s]; [reflexivity|]. cbn.
  destruct (is_digit py c); [now rewrite andb_true_r | reflexivity].
Qed.

Lemma keeps_plain_decimal (cell : str) : keeps py cell = plain_decimal py cell.
Proof.
  unfold keeps, plain_decimal.
  now rewrite isdigit_alt, all_digits_replace, has_digit_replace.
Qed.

(** The values of a column are [float] of its own kept cells, read in
    row order, whatever the other columns hold; the first cell that
    [float] refuses ends the extraction with its exception. *)
Lemma column_values_filter (idx : nat) (rows : list (list str))
    (cells : list str) :
  Forall2 (fun row cell => nth_error row idx = Some cell) rows cells ->
  column_values py python_float idx rows =
  traverse python_float (filter (keeps py) cells).
Proof.
  induction 1 as [|row cell rows cells Hcell _ IH]; [reflexivity|].
  cbn [column_values filter]. unfold getitem. rewrite Hcell.
  cbn [rbind]. destruct (keeps py cell); [|exact IH].
  cbn [traverse]. now rewrite IH.
Qed.

Lemma return_column_of_cells (header : list str) (rows : list (list str))
    (col : str) (idx : nat) (cells : list str) :
  index py col header = Ret idx ->
  Forall2 (fun row cell => nth_error row idx = Some cell) rows cells ->
  return_column py python_float (header :: rows) col =
  traverse python_float (filter (keeps py) cells).
Proof.
  intros Hidx Hcells. unfold return_column.
  cbn [getitem nth_error rbind tl]. rewrite Hidx. cbn [rbind].
  now apply column_values_filter.
Qed.
End ColumnFacts.

(** ** The fit driver: what reaches the fit and what leaves it *)

Section CurveFacts.
Variable py : interpreter.
Variable python_float : str -> res float.
Variable curve_fit :
  model_fn -> list float -> list float -> list float ->
  res (list float * list (list float)).
Variable asksaveasfilename : str.
Variable pyplot : str -> list float -> list float -> list float -> option exn.

(** With a table loaded, both columns extracted and a model selected,
    [curve] is the guarded fit on the two extracted columns as they
    are, followed by the save and the plot. *)
Lemma curve_after_columns (g : gui) (water tension : list float) :
  in_file_data g <> [] ->
  return_column py python_float (in_file_data g) (sand_select g) = Ret water ->
  return_column py python_float (in_file_data g) (silt_select g) = Ret tension ->
  model_select g <> lit "" ->
  curve py python_float curve_fit asksaveasfilename pyplot g =
  match fit_guarded python_float curve_fit g tension water with
  | fit_error msg => ([showwarning " Fit Error" msg], None)
  | fit_escaped e => ([], Some e)
  | fit_done popt pcov =>
      save_and_plot asksaveasfilename pyplot g tension water popt pcov
  end.
Proof.
  intros Hdata Hw Ht Hm. unfold curve.
  destruct (in_file_data g) as [|header rows]; [contradiction|].
  rewrite Hw, Ht.
  destruct (str_eqb_spec (model_select g) (lit "")) as [E|_]; [contradiction|].
  reflexivity.
Qed.

Lemma fit_guarded_escapes_only_base (g : gui) (tension water : list float) (e : exn) :
  fit_guarded python_float curve_fit g tension water = fit_escaped e ->
  exists cls, e = BaseException_ cls.
Proof.
  unfold fit_guarded.
  destruct (fit_try python_float curve_fit g tension water) as [[popt pcov]|[cls msg|cls]];
    intros Hesc; try discriminate.
  injection Hesc as <-. now exists cls.
Qed.

Lemma writes_of_save_and_plot (g : gui) (tension water : list float)
    (popt : list float) (pcov : list (list float)) :
  filter is_write
    (fst (save_and_plot asksaveasfilename pyplot g tension water popt pcov)) =
  if str_eqb asksaveasfilename (lit "") then []
  else [write asksaveasfilename (report popt pcov)].
Proof.
  unfold save_and_plot.
  destruct tension as [|t ts]; destruct (str_eqb asksaveasfilename (lit ""));
    reflexivity.
Qed.
End CurveFacts.

Lemma sig_symbol_range (p : float) :
  In (B64.sig_symbol p) ["ns"; "*"; "**"; "***"]%string.
Proof.
  unfold B64.sig_symbol.
  destruct (0.05 <? p)%float; [now left|].
  destruct (0.01 <? p)%float; [now right; left|].
  destruct (0.001 <? p)%float; [now right; right; left|].
  now right; right; right; left.
Qed.

Lemma report_has_no_symbol (popt : list float) (pcov : list (list float))
    (p : float) :
  ~ In (Text (B64.sig_symbol p)) (report popt pcov).
Proof.
  intros Hin.
  pose proof (sig_symbol_range p) as Hr.
  cbv [report In nl append ascii_of_nat ascii_of_pos] in Hin, Hr.
  repeat match goal with
  | H : _ \/ _ |- _ => destruct H
  | H : False |- _ => destruct H
  end; try discriminate;
  match goal with
  | H1 : Text _ = Text _, H2 : _ = B64.sig_symbol p |- _ =>
      rewrite <- H2 in H1; discriminate H1
  end.
Qed.

(** C5 (as the code has it): a successful fit delivers the fitted
    parameters and the covariance matrix and nothing else.  The report
    formats exactly these two values, none of its pieces is a
    significance symbol, and a run of [curve] whose fit succeeds writes
    that report (when a path is chosen) and nothing more. *)
Theorem fit_result_is_parameters_and_covariance :
  (forall popt pcov, formatted (report popt pcov) = [Array popt; Matrix pcov]) /\
  (forall popt pcov p, ~ In (Text (B64.sig_symbol p)) (report popt pcov)) /\
  (forall py python_float curve_fit asksaveasfilename pyplot g water tension
          popt pcov,
     in_file_data g <> [] ->
     return_column py python_float (in_file_data g) (sand_select g) = Ret water ->
     return_column py python_float (in_file_data g) (silt_select g) = Ret tension ->
     model_select g <> lit "" ->
     fit_try python_float curve_fit g tension water = Ret (popt, pcov) ->
     filter is_write
       (fst (curve py python_float curve_fit asksaveasfilename pyplot g)) =
     if str_eqb asksaveasfilename (lit "") then []
     else [write asksaveasfilename (report popt pcov)]).
Proof.
  split; [reflexivity|]. split; [exact report_has_no_symbol|].
  intros py pf cf path pp g water tension popt pcov Hdata Hw Ht Hm Hfit.
  rewrite (curve_after_columns py pf cf path pp g water tension Hdata Hw Ht Hm).
  unfold fit_guarded. rewrite Hfit.
  apply writes_of_save_and_plot.
Qed.

Lemma fit_result_is_parameters_and_covariance_witness :
  filter is_write
    (fst (curve sample_interpreter sample_float (fun _ _ _ p0 => Ret (p0, []))
            (lit "fit.txt") (fun _ _ _ _ => None)
            (window table_unequal "water" "tension" "Camopbell Model" "1"))) =
  [write (lit "fit.txt") (report [0.5; 1; 4]%float [])].
Proof.
  exact (proj2 (proj2 fit_result_is_parameters_and_covariance)
           sample_interpreter sample_float (fun _ _ _ p0 => Ret (p0, []))
           (lit "fit.txt") (fun _ _ _ _ => None)
           (window table_unequal "water" "tension" "Camopbell Model" "1")
           [0.3; 0.2]%float [10]%float [0.5; 1; 4]%float []
           ltac:(discriminate) eq_refl eq_refl ltac:(discriminate) eq_refl).
Defined.

(** C5, the claim as stated, fails: the report of a fit with three
    parameters formats two values, the parameters and the covariance
    matrix; standard errors, t-statistics and p-values are not among
    them, and no piece of it is a significance symbol. *)
Lemma report_lacks_the_statistics :
  formatted (report [0.5; 1; 4]%float [[1; 0; 0]; [0; 1; 0]; [0; 0; 1]]%float) =
    [Array [0.5; 1; 4]%float; Matrix [[1; 0; 0]; [0; 1; 0]; [0; 0; 1]]%float] /\
  ~ (exists p,
       In (Text (B64.sig_symbol p))
          (report [0.5; 1; 4]%float [[1; 0; 0]; [0; 1; 0]; [0; 0; 1]]%float)).
Proof.
  split; [reflexivity|].
  intros [p Hin]. exact (report_has_no_symbol _ _ p Hin).
Qed.

(** C9: a column is extracted from its own cells alone.  The cells kept
    are those made of digits with at most one decimal point (a digit
    being any character that [str.isdigit] accepts), so negatives,
    scientific notation and blanks are dropped; the result is [float]
    of the kept cells in row order.  So the water-content and tension
    sequences can differ in length, or pair values of different rows,
    and [curve] hands them to the fit as they are.  Beyond ASCII, a
    digit of the database is kept like any other (the Arabic-Indic
    two), and a kept cell that [float] refuses (the superscript two)
    ends the extraction with the exception of [float]. *)
Theorem return_column_filters_each_column_alone :
  (forall py python_float header rows col idx cells,
     index py col header = Ret idx ->
     Forall2 (fun row cell => nth_error row idx = Some cell) rows cells ->
     return_column py python_float (header :: rows) col =
     traverse python_float (filter (keeps py) cells)) /\
  (forall py cell, keeps py cell = plain_decimal py cell) /\
  (forall py,
     keeps py (lit "-5") = false /\ keeps py (lit "1e3") = false /\
     keeps py (lit "") = false /\ keeps py (lit " ") = false /\
     keeps py (lit "12.5") = true) /\
  (forall py python_float w1 w2 t1 t2,
     python_float (lit "0.3") = Ret w1 -> python_float (lit "0.2") = Ret w2 ->
     python_float (lit "10") = Ret t1 -> python_float (lit "100") = Ret t2 ->
     (return_column py python_float table_unequal (lit "water") = Ret [w1; w2] /\
      return_column py python_float table_unequal (lit "tension") = Ret [t1]) /\
     (return_column py python_float table_shifted (lit "water") = Ret [w1; w2] /\
      return_column py python_float table_shifted (lit "tension") = Ret [t1; t2] /\
      ~ In [lit "0.2"; lit "100"] table_shifted)) /\
  (forall py python_float curve_fit asksaveasfilename pyplot w1 w2 t1 a c d,
     python_float (lit "0.3") = Ret w1 -> python_float (lit "0.2") = Ret w2 ->
     python_float (lit "10") = Ret t1 ->
     python_float (lit "0.5") = Ret a ->
     python_float (lit "0.01") = Ret c -> python_float (lit "2") = Ret d ->
     curve py python_float curve_fit asksaveasfilename pyplot
       (window table_unequal "water" "tension" "Van Genuchten Model" "1") =
     match curve_fit fn_VG [t1] [w1; w2] [a; w2; c; d] with
     | Ret (popt, pcov) =>
         save_and_plot asksaveasfilename pyplot
           (window table_unequal "water" "tension" "Van Genuchten Model" "1")
           [t1] [w1; w2] popt pcov
     | Raise (Exception_ _ msg) => ([showwarning " Fit Error" msg], None)
     | Raise (BaseException_ cls) => ([], Some (BaseException_ cls))
     end) /\
  (forall py python_float v e,
     unicode_digit py 1634 = true -> unicode_digit py 178 = true ->
     python_float (lit "5") = Ret v -> python_float [178%N] = Raise e ->
     keeps py [1634%N] = true /\ keeps py [178%N] = true /\
     return_column py python_float [[lit "c"]; [lit "5"]; [[178%N]]] (lit "c") =
     Raise e).
Proof.
  assert (Hu : forall py pf w1 w2 t1,
    pf (lit "0.3") = Ret w1 -> pf (lit "0.2") = Ret w2 ->
    pf (lit "10") = Ret t1 ->
    return_column py pf table_unequal (lit "water") = Ret [w1; w2] /\
    return_column py pf table_unequal (lit "tension") = Ret [t1]).
  { intros py pf w1 w2 t1 H1 H2 H3. vm_compute in H1, H2, H3.
    split; vm_compute; now rewrite ?H1, ?H2, ?H3. }
  assert (Hs : forall py pf w1 w2 t1 t2,
    pf (lit "0.3") = Ret w1 -> pf (lit "0.2") = Ret w2 ->
    pf (lit "10") = Ret t1 -> pf (lit "100") = Ret t2 ->
    return_column py pf table_shifted (lit "water") = Ret [w1; w2] /\
    return_column py pf table_shifted (lit "tension") = Ret [t1; t2]).
  { intros py pf w1 w2 t1 t2 H1 H2 H3 H4. vm_compute in H1, H2, H3, H4.
    split; vm_compute; now rewrite ?H1, ?H2, ?H3, ?H4. }
  split; [|split; [|split; [|split; [|split]]]].
  - exact return_column_of_cells.
  - exact keeps_plain_decimal.
  - intros py. repeat split.
  - intros py pf w1 w2 t1 t2 H1 H2 H3 H4.
    split; [exact (Hu py pf w1 w2 t1 H1 H2 H3)|].
    destruct (Hs py pf w1 w2 t1 t2 H1 H2 H3 H4) as [Hs1 Hs2].
    split; [exact Hs1|]. split; [exact Hs2|].
    cbv [table_shifted table map In]. intuition discriminate.
  - intros py pf cf path pp w1 w2 t1 a c d H1 H2 H3 Ha Hc Hd.
    destruct (Hu py pf w1 w2 t1 H1 H2 H3) as [Hw Ht].
    rewrite (curve_after_columns py pf cf path pp _ [w1; w2] [t1]);
      try assumption; try discriminate.
    unfold fit_guarded, fit_try.
    change (str_eqb (model_select (window table_unequal "water" "tension"
                                     "Van Genuchten Model" "1"))
              (lit "Van Genuchten Model")) with true.
    cbv iota.
    change (qs (window table_unequal "water" "tension" "Van Genuchten Model" "1"))
      with (lit "0.5").
    change (qr (window table_unequal "water" "tension" "Van Genuchten Model" "1"))
      with (lit "0.2").
    change (alpha (window table_unequal "water" "tension" "Van Genuchten Model" "1"))
      with (lit "0.01").
    change (n (window table_unequal "water" "tension" "Van Genuchten Model" "1"))
      with (lit "2").
    rewrite Ha, H2, Hc, Hd. cbn [rbind].
    destruct (cf fn_VG [t1] [w1; w2] [a; w2; c; d])
      as [[popt pcov]|[cls msg|cls]]; reflexivity.
  - intros py pf v e Harabic Hsuper H5 H2.
    assert (K1 : keeps py [1634%N] = true)
      by (cbv [keeps replace_first_dot isdigit all_digits is_digit dot];
          cbn; now rewrite Harabic).
    assert (K2 : keeps py [178%N] = true)
      by (cbv [keeps replace_first_dot isdigit all_digits is_digit dot];
          cbn; now rewrite Hsuper).
    split; [exact K1|]. split; [exact K2|].
    rewrite (return_column_of_cells py pf _ _ _ 0 [lit "5"; [178%N]]);
      [|reflexivity|repeat constructor].
    cbn [filter]. change (keeps py (lit "5")) with true. cbv iota.
    rewrite K2. cbn [traverse]. now rewrite H5, H2.
Qed.

Lemma return_column_filters_each_column_alone_witness :
  return_column sample_interpreter sample_float
    (table [["a"; "b"]; ["1"; "x"]; ["-2"; "7"]; ["0.5"; ""]]%string) (lit "a") =
  traverse sample_float
    (filter (keeps sample_interpreter) [lit "1"; lit "-2"; lit "0.5"]) /\
  ((return_column sample_interpreter sample_float table_unequal (lit "water") =
    Ret [0.3; 0.2]%float /\
    return_column sample_interpreter sample_float table_unequal (lit "tension") =
    Ret [10]%float) /\
   (return_column sample_interpreter sample_float table_shifted (lit "water") =
    Ret [0.3; 0.2]%float /\
    return_column sample_interpreter sample_float table_shifted (lit "tension") =
    Ret [10; 100]%float /\
    ~ In [lit "0.2"; lit "100"] table_shifted)) /\
  curve sample_interpreter sample_float
    (fun _ _ _ _ => Raise (Exception_ "TypeError" (lit "Improper input")))
    (lit "fit.txt") (fun _ _ _ _ => None)
    (window table_unequal "water" "tension" "Van Genuchten Model" "1") =
  ([showwarning " Fit Error" (lit "Improper input")], None).
Proof.
  split; [|split].
  - apply (proj1 return_column_filters_each_column_alone
             sample_interpreter sample_float [lit "a"; lit "b"] _ (lit "a") 0%nat).
    + reflexivity.
    + repeat constructor.
  - apply (proj1 (proj2 (proj2 (proj2 return_column_filters_each_column_alone)))
             sample_interpreter sample_float); reflexivity.
  - exact (proj1 (proj2 (proj2 (proj2 (proj2
             return_column_filters_each_column_alone))))
             sample_interpreter sample_float
             (fun _ _ _ _ => Raise (Exception_ "TypeError" (lit "Improper input")))
             (lit "fit.txt") (fun _ _ _ _ => None)
             0.3%float 0.2%float 10%float 0.5%float 0.01%float 2%float
             eq_refl eq_refl eq_refl eq_refl eq_refl eq_refl).
Defined.

(** ** The model functions at every carrier *)

Section AnyCarrier.
Context {A : Type} `{Arith A}.

(** C6: in the flat (saturated) region the models reproduce qs
    exactly: Campbell(x, qs, he, b) is qs for every x <= he and
    BC(x, qs, qr, lambda, sib) is qs for every x <= sib.  It holds at
    every carrier (on binary64 the result is qs bit for bit) and for
    all parameters, those with he > 0, b <> 0, sib > 0, lambda > 0
    included. *)
Theorem flat_region_reproduces_qs :
  (forall x qs he b : A,
     fle x he = true -> Campbell x qs he b = Some qs) /\
  (forall x qs qr lamda sib : A,
     fle x sib = true -> BC x qs qr lamda sib = Some qs).
Proof.
  split; intros; [unfold Campbell | unfold BC];
    match goal with Hle : fle _ _ = true |- _ => rewrite Hle end;
    reflexivity.
Qed.
End AnyCarrier.

Lemma flat_region_reproduces_qs_witness :
  (Campbell 1 0.5 2 4 = Some 0.5)%float /\
  (BC 15 0.5 0.2 1 15 = Some 0.5)%float /\
  (Campbell 1 (1/2) 2 4 = Some (1/2))%R.
Proof.
  split; [|split].
  - apply (proj1 (flat_region_reproduces_qs (A := float))). reflexivity.
  - apply (proj2 (flat_region_reproduces_qs (A := float))). reflexivity.
  - apply (proj1 (flat_region_reproduces_qs (A := R))).
    apply ExactFacts.le_true. lra.
Defined.

(** ** The model functions on binary64 *)

Section B64Models.
Import B64 B64Order.
Local Open Scope float_scope.

(** C4: sig_symbol returns "ns" if p > 0.05, "*" if 0.01 < p <= 0.05,
    "**" if 0.001 < p <= 0.01 and "***" if p <= 0.001; p = 0.04 gives
    "*" and p = 0.2 gives "ns". *)
Theorem sig_symbol_mapping (p : float) :
  ((0.05 <? p) = true -> sig_symbol p = "ns"%string) /\
  ((0.01 <? p) = true -> (p <=? 0.05) = true -> sig_symbol p = "*"%string) /\
  ((0.001 <? p) = true -> (p <=? 0.01) = true -> sig_symbol p = "**"%string) /\
  ((p <=? 0.001) = true -> sig_symbol p = "***"%string) /\
  sig_symbol 0.04 = "*"%string /\ sig_symbol 0.2 = "ns"%string.
Proof.
  unfold sig_symbol. repeat split.
  - intros ->. reflexivity.
  - intros H1 H5. now rewrite (leb_ltb_false _ _ H5), H1.
  - intros H1 H2.
    rewrite (leb_below p 0.01 0.05 H2 eq_refl).
    now rewrite (leb_ltb_false _ _ H2), H1.
  - intros H1.
    rewrite (leb_below p 0.001 0.05 H1 eq_refl).
    rewrite (leb_below p 0.001 0.01 H1 eq_refl).
    now rewrite (leb_ltb_false _ _ H1).
Qed.

Lemma sig_symbol_mapping_witness :
  sig_symbol 0.3 = "ns"%string /\ sig_symbol 0.03 = "*"%string /\
  sig_symbol 0.003 = "**"%string /\ sig_symbol 0.0003 = "***"%string.
Proof.
  split; [|split; [|split]].
  - exact (proj1 (sig_symbol_mapping 0.3) eq_refl).
  - exact (proj1 (proj2 (sig_symbol_mapping 0.03)) eq_refl eq_refl).
  - exact (proj1 (proj2 (proj2 (sig_symbol_mapping 0.003))) eq_refl eq_refl).
  - exact (proj1 (proj2 (proj2 (proj2 (sig_symbol_mapping 0.0003)))) eq_refl).
Defined.

Lemma mul_pos_zero (a : float) :
  (0 <? a) = true -> (a <? infinity) = true -> a * 0 = 0.
Proof.
  rewrite !FloatAxioms.ltb_spec. intros Hpos Hfin.
  apply Prim2SF_inj. rewrite FloatAxioms.mul_spec.
  change (Prim2SF 0) with (S754_zero false) in *.
  change (Prim2SF infinity) with (S754_infinity false) in *.
  destruct (Prim2SF a) as [s|s| |s m e]; try destruct s; try discriminate.
  reflexivity.
Qed.

Lemma pow_c99_zero_base (n : float) : (0 <? n) = true -> pow 0 n = Some 0.
Proof.
  intros Hn. unfold pow.
  rewrite (ltb_not_eqb _ _ Hn).
  change (0 =? 1) with false. change (is_nan 0) with false.
  rewrite (ltb_not_nan _ _ Hn). cbn [orb].
  change (is_pos_zero 0) with true. cbn iota.
  now rewrite Hn.
Qed.

Lemma pow_c99_one_base (y : float) : pow 1 y = Some 1.
Proof.
  unfold pow. destruct (y =? 0); [reflexivity|].
  change (1 =? 1) with true. reflexivity.
Qed.

(** On binary64 the Van Genuchten function at zero tension is the
    rounded sum 1 (qs - qr) + qr, for every finite alpha > 0 and
    every n > 0. *)
Lemma VG_zero_tension_b64 (qs qr alpha n : float) :
  (0 <? alpha) = true -> (alpha <? infinity) = true -> (0 <? n) = true ->
  VG 0 qs qr alpha n = Some (1 * (qs - qr) + qr).
Proof.
  intros Ha Hfin Hn. unfold VG.
  cbn [fpow fmul fadd fsub fdiv fone float_arith bind].
  rewrite (mul_pos_zero _ Ha Hfin), (pow_c99_zero_base _ Hn). cbn [bind].
  change (1 + 0) with 1. rewrite pow_c99_one_base. cbn [bind].
  change (1 / 1) with 1. reflexivity.
Qed.

(** The branch convention on binary64: the saturated branch at
    x <= he, the branch point x == he included, returns qs itself; at
    x > he the result is qs times the library's power. *)
Lemma Campbell_b64_branches (x qs he b : float) :
  ((x <=? he) = true -> Campbell x qs he b = Some qs) /\
  ((x =? he) = true -> Campbell x qs he b = Some qs) /\
  ((he <? x) = true ->
   Campbell x qs he b = bind (pow (x / he) (- (1) / b)) (fun p => Some (qs * p))).
Proof.
  unfold Campbell. cbn [fle fdiv fneg fone fpow fmul float_arith bind].
  repeat split.
  - intros ->. reflexivity.
  - intros Heq. now rewrite (eqb_leb _ _ Heq).
  - intros Hlt. now rewrite (ltb_leb_false _ _ Hlt).
Qed.

Lemma BC_b64_branches (x qs qr lamda sib : float) :
  ((x <=? sib) = true -> BC x qs qr lamda sib = Some qs) /\
  ((x =? sib) = true -> BC x qs qr lamda sib = Some qs) /\
  ((sib <? x) = true ->
   BC x qs qr lamda sib =
   bind (pow (x / sib) (- lamda)) (fun p => Some (qr + (qs - qr) * p))).
Proof.
  unfold BC. cbn [fle fdiv fneg fone fpow fmul fadd fsub float_arith bind].
  repeat split.
  - intros ->. reflexivity.
  - intros Heq. now rewrite (eqb_leb _ _ Heq).
  - intros Hlt. now rewrite (ltb_leb_false _ _ Hlt).
Qed.

Lemma div_pos_by_zero (x : float) : (0 <? x) = true -> x / 0 = infinity.
Proof.
  rewrite FloatAxioms.ltb_spec. intros Hpos.
  apply Prim2SF_inj. rewrite FloatAxioms.div_spec.
  change (Prim2SF 0) with (S754_zero false) in *.
  change (Prim2SF infinity) with (S754_infinity false).
  destruct (Prim2SF x) as [s|s| |s m e]; try destruct s; try discriminate;
    reflexivity.
Qed.

(** C10, the claim as stated, fails on binary64: with the saturated and
    residual water contents of a silt (0.46 and 0.034) the value at
    zero tension is the double above 0.46 (0.46000000000000008 to 17
    digits, printed by Python as 0.4600000000000001), not qs = 0.46. *)
Lemma VG_zero_tension_rounds :
  VG 0 0.46 0.034 0.016 1.37 = Some 0.46000000000000008 /\
  VG 0 0.46 0.034 0.016 1.37 <> Some 0.46.
Proof.
  split; [vm_compute; reflexivity|].
  intros Heq.
  apply (f_equal (fun o => match o with
                           | Some v => v =? 0.46
                           | None => false
                           end)) in Heq.
  vm_compute in Heq. discriminate Heq.
Qed.

(** C10 (as the code has it): at zero tension the Van Genuchten
    function is qs in exact arithmetic, for every n > 0, and it has no
    other value there; on binary64 it is the rounded 1 (qs - qr) + qr,
    for every finite alpha > 0 and every n > 0. *)
Theorem VG_zero_tension :
  (forall qs qr alpha n : R,
     ((0 < n)%R -> VG 0%R qs qr alpha n = Some qs) /\
     (forall v, VG 0%R qs qr alpha n = Some v -> v = qs)) /\
  (forall qs qr alpha n : float,
     (0 <? alpha) = true -> (alpha <? infinity) = true -> (0 <? n) = true ->
     VG 0 qs qr alpha n = Some (1 * (qs - qr) + qr)).
Proof.
  split.
  - exact VG_zero_tension_exact.
  - exact VG_zero_tension_b64.
Qed.

Lemma VG_zero_tension_witness :
  VG 0%R (1/2)%R (1/5)%R (1/100)%R 2%R = Some (1/2)%R /\
  VG 0 0.5 0.2 0.01 2 = Some (1 * (0.5 - 0.2) + 0.2).
Proof.
  split.
  - apply (proj1 VG_zero_tension). lra.
  - apply (proj2 VG_zero_tension); reflexivity.
Defined.

(** C8, the claim as stated, fails: with he = 0 the Campbell function
    is evaluated like any other; at the tensions 1, 10, 100 and 1000
    (qs = 0.5, b = 4) it returns the number 0, and nothing rejects it. *)
Lemma Campbell_he_zero_is_evaluated :
  Campbell_array [1; 10; 100; 1000] 0.5 0 4 = [Some 0; Some 0; Some 0; Some 0].
Proof. vm_compute. reflexivity. Qed.

Lemma Campbell_he_zero (x qs : float) :
  (0 <? x) = true -> Campbell x qs 0 4 = Some (qs * 0).
Proof.
  intros Hx. unfold Campbell.
  cbn [fle fdiv fneg fone fpow fmul float_arith].
  rewrite (ltb_leb_false _ _ Hx). cbn [where_ bind].
  rewrite (div_pos_by_zero _ Hx).
  change (pow infinity (- (1) / 4)) with (Some 0). reflexivity.
Qed.
End B64Models.

(** ** A Campbell fit started at he = 0 *)

(** C8 (as the code has it): a Campbell fit with initial guess he = 0
    meets no domain check.  The model function evaluates at he = 0 (to
    qs 0 at every tension x > 0 when b = 4, to qs at x <= 0), the guess
    reaches [curve_fit] unchanged, and whatever [curve_fit] then raises
    that is an [Exception] is caught and shown as a "Fit Error"
    warning: only a BaseException can leave the guarded fit. *)
Theorem Campbell_he_zero_fit :
  (forall x qs : float,
     (0 <? x)%float = true -> Campbell x qs 0%float 4%float = Some (qs * 0)%float) /\
  (forall x qs b : float,
     (x <=? 0)%float = true -> Campbell x qs 0%float b = Some qs) /\
  (forall python_float curve_fit g tension water a c,
     model_select g = lit "Camopbell Model" ->
     python_float (qs g) = Ret a -> python_float (he g) = Ret 0%float ->
     python_float (Campbell_b g) = Ret c ->
     fit_try python_float curve_fit g tension water =
     curve_fit fn_Campbell tension water [a; 0%float; c]) /\
  (forall python_float curve_fit g tension water e,
     fit_guarded python_float curve_fit g tension water = fit_escaped e ->
     exists cls, e = BaseException_ cls) /\
  (forall py python_float curve_fit asksaveasfilename pyplot g water tension
          cls msg,
     in_file_data g <> [] ->
     return_column py python_float (in_file_data g) (sand_select g) = Ret water ->
     return_column py python_float (in_file_data g) (silt_select g) = Ret tension ->
     model_select g <> lit "" ->
     fit_try python_float curve_fit g tension water = Raise (Exception_ cls msg) ->
     curve py python_float curve_fit asksaveasfilename pyplot g =
     ([showwarning " Fit Error" msg], None)).
Proof.
  split; [exact Campbell_he_zero|].
  split; [intros x qs b Hx; exact (proj1 (Campbell_b64_branches x qs 0%float b) Hx)|].
  split; [|split].
  - intros pf cf g tension water a c Hm Ha Hhe Hc.
    unfold fit_try. rewrite Hm.
    change (str_eqb (lit "Camopbell Model") (lit "Van Genuchten Model"))
      with false.
    change (str_eqb (lit "Camopbell Model") (lit "Camopbell Model")) with true.
    cbv iota. rewrite Ha, Hhe, Hc. reflexivity.
  - exact fit_guarded_escapes_only_base.
  - intros py pf cf path pp g water tension cls msg Hdata Hw Ht Hm Hfit.
    rewrite (curve_after_columns py pf cf path pp g water tension Hdata Hw Ht Hm).
    unfold fit_guarded. now rewrite Hfit.
Qed.

Lemma Campbell_he_zero_fit_witness :
  (Campbell 10 0.5 0 4 = Some (0.5 * 0))%float /\
  (Campbell (-1) 0.5 0 4 = Some 0.5)%float /\
  fit_try sample_float (fun _ _ _ p0 => Ret (p0, []))
    (window table_shifted "water" "tension" "Camopbell Model" "0")
    [10; 100]%float [0.3; 0.2]%float =
  Ret ([0.5; 0; 4]%float, []) /\
  (exists cls, BaseException_ "KeyboardInterrupt" = BaseException_ cls) /\
  curve sample_interpreter sample_float
    (fun _ _ _ _ =>
       Raise (Exception_ "RuntimeError" (lit "Optimal parameters not found")))
    (lit "fit.txt") (fun _ _ _ _ => None)
    (window table_shifted "water" "tension" "Camopbell Model" "0") =
  ([showwarning " Fit Error" (lit "Optimal parameters not found")], None).
Proof.
  split; [|split; [|split; [|split]]].
  - apply (proj1 Campbell_he_zero_fit). reflexivity.
  - apply (proj1 (proj2 Campbell_he_zero_fit)). reflexivity.
  - exact (proj1 (proj2 (proj2 Campbell_he_zero_fit))
             sample_float (fun _ _ _ p0 => Ret (p0, []))
             (window table_shifted "water" "tension" "Camopbell Model" "0")
             [10; 100]%float [0.3; 0.2]%float 0.5%float 4%float
             eq_refl eq_refl eq_refl eq_refl).
  - exact (proj1 (proj2 (proj2 (proj2 Campbell_he_zero_fit)))
             sample_float
             (fun _ _ _ _ => Raise (BaseException_ "KeyboardInterrupt"))
             (window table_shifted "water" "tension" "Camopbell Model" "0")
             [10; 100]%float [0.3; 0.2]%float
             (BaseException_ "KeyboardInterrupt") eq_refl).
  - apply (proj2 (proj2 (proj2 (proj2 Campbell_he_zero_fit))))
      with (water := [0.3; 0.2]%float) (tension := [10; 100]%float)
           (cls := "RuntimeError"%string);
      try reflexivity; discriminate.
Defined.

(** ** Column extraction: when it succeeds and how it fails *)

Section ColumnErrors.
Local Open Scope res_scope.
Variable py : interpreter.
Variable python_float : str -> res float.

Lemma index_missing (col : str) (l : list str) :
  ~ In col l ->
  index py col l = Raise (Exception_ "ValueError" (not_in_list py col)).
Proof.
  induction l as [|h t IH]; intros Hnot; [reflexivity|].
  cbn [index]. destruct (str_eqb_spec h col) as [->|Hne].
  - exfalso. apply Hnot. now left.
  - rewrite IH; [reflexivity|]. intros Hin. apply Hnot. now right.
Qed.

Lemma index_first (col : str) (pre post : list str) :
  ~ In col pre -> index py col (pre ++ col :: post) = Ret (length pre).
Proof.
  induction pre as [|h t IH]; intros Hnot; cbn [index app length].
  - now rewrite str_eqb_refl.
  - destruct (str_eqb_spec h col) as [->|Hne].
    + exfalso. apply Hnot. now left.
    + rewrite IH; [reflexivity|]. intros Hin. apply Hnot. now right.
Qed.

Lemma traverse_returns_iff {T U : Type} (f : T -> res U) (l : list T) :
  (exists vs, traverse f l = Ret vs) <-> Forall (fun x => exists v, f x = Ret v) l.
Proof.
  induction l as [|x l IH]; cbn [traverse].
  - split; [constructor | now exists []].
  - split.
    + intros [vs Hvs]. destruct (f x) as [v|e] eqn:Hx; [|discriminate].
      cbn [rbind] in Hvs.
      destruct (traverse f l) as [ws|e]; [|discriminate].
      constructor; [now exists v | apply IH; now exists ws].
    + intros Hall. inversion Hall as [|? ? [v Hv] Hrest]; subst.
      apply IH in Hrest. destruct Hrest as [ws ->]. rewrite Hv.
      now exists (v :: ws).
Qed.


Lemma traverse_length {T U : Type} (f : T -> res U) (l : list T) (vs : list U) :
  traverse f l = Ret vs -> Forall2 (fun x v => f x = Ret v) l vs.
Proof.
  revert vs. induction l as [|x l IH]; intros vs; cbn [traverse].
  - intros Heq. injection Heq as <-. constructor.
  - destruct (f x) as [v|e] eqn:Hx; [|discriminate]. cbn [rbind].
    destruct (traverse f l) as [ws|e]; [|discriminate]. cbn [rbind].
    intros Heq. injection Heq as <-. constructor; [exact Hx | now apply IH].
Qed.

Lemma cells_of_long_rows (idx : nat) (rows : list (list str)) :
  Forall (fun row => idx < length row) rows ->
  Forall2 (fun row cell => nth_error row idx = Some cell) rows
    (column_cells idx rows).
Proof.
  induction 1 as [|row rest Hrow _ IH]; constructor; [|exact IH].
  now apply nth_error_nth'.
Qed.

Lemma column_values_long (idx : nat) (rows : list (list str)) :
  Forall (fun row => idx < length row) rows ->
  column_values py python_float idx rows =
  traverse python_float (filter (keeps py) (column_cells idx rows)).
Proof.
  intros Hlong. apply column_values_filter. now apply cells_of_long_rows.
Qed.

(** Rows that reach the column are read one after the other: the
    extraction of the rows that follow goes on after [float] has read
    their kept cells. *)
Lemma column_values_app (idx : nat) (before rest : list (list str)) :
  Forall (fun row => idx < length row) before ->
  column_values py python_float idx (before ++ rest) =
  (vs <- traverse python_float (filter (keeps py) (column_cells idx before)) ;;
   ws <- column_values py python_float idx rest ;;
   Ret (vs ++ ws)).
Proof.
  intros Hlong. induction Hlong as [|row more Hrow _ IH].
  - cbn [app column_cells map filter traverse rbind].
    now destruct (column_values py python_float idx rest).
  - cbn [app column_values column_cells map filter]. unfold getitem.
    rewrite (nth_error_nth' row [] Hrow). cbn [rbind].
    fold (column_cells idx more).
    destruct (keeps py (nth idx row [])); [|exact IH].
    cbn [traverse]. destruct (python_float (nth idx row [])); [|reflexivity].
    cbn [rbind]. rewrite IH.
    destruct (traverse python_float
                (filter (keeps py) (column_cells idx more))); [|reflexivity].
    cbn [rbind]. now destruct (column_values py python_float idx rest).
Qed.

(** A row too short for the column ends the extraction with
    IndexError, unless [float] has refused a cell of a row before it;
    the rows after it are not looked at. *)
Lemma column_values_short (idx : nat) (before : list (list str))
    (short : list str) (after : list (list str)) :
  Forall (fun row => idx < length row) before ->
  length short <= idx ->
  column_values py python_float idx (before ++ short :: after) =
  (_ <- traverse python_float (filter (keeps py) (column_cells idx before)) ;;
   Raise IndexError).
Proof.
  intros Hlong Hshort. rewrite (column_values_app idx before _ Hlong).
  cbn [column_values]. unfold getitem.
  apply nth_error_None in Hshort. rewrite Hshort. reflexivity.
Qed.

(** A kept cell that [float] refuses ends it with the exception of
    [float], in the same way. *)
Lemma column_values_refused (idx : nat) (before : list (list str))
    (row : list str) (after : list (list str)) (cell : str) (e : exn) :
  Forall (fun row => idx < length row) before ->
  nth_error row idx = Some cell -> keeps py cell = true ->
  python_float cell = Raise e ->
  column_values py python_float idx (before ++ row :: after) =
  (_ <- traverse python_float (filter (keeps py) (column_cells idx before)) ;;
   Raise e).
Proof.
  intros Hlong Hcell Hkeep He. rewrite (column_values_app idx before _ Hlong).
  cbn [column_values]. unfold getitem. rewrite Hcell. cbn [rbind].
  now rewrite Hkeep, He.
Qed.

(** The first row too short for the column, if there is one. *)
Lemma first_short_row (idx : nat) (rows : list (list str)) :
  Exists (fun row => length row <= idx) rows ->
  exists before short after,
    rows = before ++ short :: after /\
    Forall (fun row => idx < length row) before /\ length short <= idx.
Proof.
  induction rows as [|row rest IH]; intros Hex; [inversion Hex|].
  destruct (Nat.lt_ge_cases idx (length row)) as [Hlt|Hge].
  - inversion Hex as [? ? Hshort|? ? Hrest]; subst; [lia|].
    destruct (IH Hrest) as (before & short & after & -> & Hlong & Hshort).
    exists (row :: before), short, after.
    split; [reflexivity|]. split; [now constructor | exact Hshort].
  - exists [], row, rest. split; [reflexivity|]. split; [constructor | exact Hge].
Qed.

Lemma column_values_never_returns (idx : nat) (rows : list (list str))
    (values : list float) :
  Exists (fun row => length row <= idx) rows ->
  column_values py python_float idx rows <> Ret values.
Proof.
  intros Hex.
  destruct (first_short_row idx rows Hex)
    as (before & short & after & -> & Hlong & Hshort).
  rewrite (column_values_short idx before short after Hlong Hshort).
  now destruct (traverse python_float
                  (filter (keeps py) (column_cells idx before))).
Qed.

Lemma return_column_at (header : list str) (rows : list (list str))
    (col : str) (idx : nat) :
  index py col header = Ret idx ->
  return_column py python_float (header :: rows) col =
  column_values py python_float idx rows.
Proof.
  intros Hidx. unfold return_column.
  cbn [getitem nth_error rbind tl]. now rewrite Hidx.
Qed.

Lemma return_column_no_column (header : list str)
    (rows : list (list str)) (col : str) :
  ~ In col header ->
  return_column py python_float (header :: rows) col =
  Raise (Exception_ "ValueError" (not_in_list py col)).
Proof.
  intros Hnot. unfold return_column.
  cbn [getitem nth_error rbind]. now rewrite index_missing.
Qed.

(** X1: [return_column] raises IndexError on a table with no row at
    all, and the ValueError of [list.index] for the column name when
    the header does not hold it; the data rows are not looked at in
    either case. *)
Theorem return_column_missing_column :
  (forall col, return_column py python_float [] col = Raise IndexError) /\
  (forall header rows col,
     ~ In col header ->
     return_column py python_float (header :: rows) col =
     Raise (Exception_ "ValueError" (not_in_list py col))).
Proof.
  split; [reflexivity|]. exact return_column_no_column.
Qed.

(** X2: when every data row reaches the column, [return_column] reads
    the first column whose header cell is the name (later columns of
    the same name are never read): the result is [float] of its kept
    cells, in row order, and the exception of the first kept cell that
    [float] refuses, if there is one. *)
Theorem return_column_reads_first_match
    (pre post : list str) (rows : list (list str)) (col : str) :
  ~ In col pre ->
  Forall (fun row => length pre < length row) rows ->
  return_column py python_float ((pre ++ col :: post) :: rows) col =
  traverse python_float (filter (keeps py) (column_cells (length pre) rows)).
Proof.
  intros Hnot Hlong.
  rewrite (return_column_at _ _ _ _ (index_first col pre post Hnot)).
  now apply column_values_long.
Qed.

(** X3: a data row too short for the column makes [return_column]
    raise, whatever the other rows hold: it never returns a value.  The
    exception is IndexError, raised at the first such row, unless
    [float] has refused a kept cell of a row before it; the rows after
    it are not looked at. *)
Theorem return_column_short_row
    (header : list str) (col : str) (idx : nat) :
  index py col header = Ret idx ->
  (forall rows values,
     Exists (fun row => length row <= idx) rows ->
     return_column py python_float (header :: rows) col <> Ret values) /\
  (forall before short after,
     Forall (fun row => idx < length row) before ->
     length short <= idx ->
     return_column py python_float (header :: before ++ short :: after) col =
     (_ <- traverse python_float
             (filter (keeps py) (column_cells idx before)) ;;
      Raise IndexError)).
Proof.
  intros Hidx. split.
  - intros rows values Hex. rewrite (return_column_at _ _ _ _ Hidx).
    now apply column_values_never_returns.
  - intros before short after Hlong Hshort.
    rewrite (return_column_at _ _ _ _ Hidx).
    now apply column_values_short.
Qed.

(** X4: [return_column] returns a value exactly when the table has a
    header holding the column name, every data row reaches that column,
    and [float] reads every cell of the column that is kept. *)
Theorem return_column_succeeds_iff (data : list (list str)) (col : str) :
  (exists values, return_column py python_float data col = Ret values) <->
  (exists header rows idx,
     data = header :: rows /\ index py col header = Ret idx /\
     Forall (fun row => idx < length row) rows /\
     Forall (fun cell => keeps py cell = true ->
                         exists v, python_float cell = Ret v)
       (column_cells idx rows)).
Proof.
  split.
  - intros [values Hret]. destruct data as [|header rows]; [discriminate|].
    destruct (index py col header) as [idx|e] eqn:Hidx;
      [|unfold return_column in Hret; cbn [getitem nth_error rbind] in Hret;
        rewrite Hidx in Hret; discriminate].
    rewrite (return_column_at _ _ _ _ Hidx) in Hret.
    exists header, rows, idx.
    split; [reflexivity|]. split; [exact Hidx|].
    assert (Hlong : Forall (fun row => idx < length row) rows).
    { apply Forall_forall. intros row Hin.
      destruct (Nat.lt_ge_cases idx (length row)) as [Hlt|Hge]; [exact Hlt|].
      exfalso. apply (column_values_never_returns idx rows values); [|exact Hret].
      apply Exists_exists. now exists row. }
    split; [exact Hlong|].
    rewrite (column_values_long idx rows Hlong) in Hret.
    assert (Hall : Forall (fun x => exists v, python_float x = Ret v)
                     (filter (keeps py) (column_cells idx rows)))
      by (apply traverse_returns_iff; now exists values).
    apply Forall_forall. intros cell Hin Hkeep.
    rewrite Forall_forall in Hall. apply Hall.
    apply filter_In. now split.
  - intros (header & rows & idx & -> & Hidx & Hlong & Hread).
    rewrite (return_column_at _ _ _ _ Hidx), (column_values_long idx rows Hlong).
    apply traverse_returns_iff. apply Forall_forall. intros cell Hin.
    apply filter_In in Hin. destruct Hin as [Hin Hkeep].
    rewrite Forall_forall in Hread. now apply Hread.
Qed.



End ColumnErrors.

Lemma return_column_missing_column_witness :
  return_column sample_interpreter sample_float table_unequal (lit "it's") =
  Raise (Exception_ "ValueError"
           ([34%N] ++ lit "it's" ++ [34%N] ++ lit " is not in list")).
Proof.
  apply (proj2 (return_column_missing_column sample_interpreter sample_float)
           (map lit ["water"; "tension"]%string)
           (table [["0.3"; "10"]; ["0.2"; "-5"]]%string) (lit "it's")).
  cbv [In map]. intuition discriminate.
Defined.

Lemma return_column_reads_first_match_witness :
  return_column sample_interpreter sample_float
    (table [["t"; "w"; "w"]; ["1"; "0.5"; "9"]; ["2"; "x"; "8"]]%string) (lit "w") =
  Ret [0.5%float].
Proof.
  apply (return_column_reads_first_match sample_interpreter sample_float
           [lit "t"] [lit "w"]
           (table [["1"; "0.5"; "9"]; ["2"; "x"; "8"]]%string) (lit "w")).
  - cbv [In]. intuition discriminate.
  - repeat constructor.
Defined.

Lemma return_column_short_row_witness :
  return_column sample_interpreter sample_float
    (table [["water"; "tension"]; ["0.3"; "10"]; [""]; ["0.2"; "7"]]%string)
    (lit "tension") = Raise IndexError.
Proof.
  apply (proj2 (return_column_short_row sample_interpreter sample_float
                  (map lit ["water"; "tension"]%string) (lit "tension") 1 eq_refl)
           (table [["0.3"; "10"]]%string) [lit ""]
           (table [["0.2"; "7"]]%string)).
  - repeat constructor.
  - cbn. lia.
Defined.


(** ** The fit driver: errors before the fit, and what a run can do *)

Section CurveRuns.
Local Open Scope res_scope.
Variable py : interpreter.
Variable python_float : str -> res float.
Variable curve_fit :
  model_fn -> list float -> list float -> list float ->
  res (list float * list (list float)).
Variable asksaveasfilename : str.
Variable pyplot : str -> list float -> list float -> list float -> option exn.

Lemma curve_water_error (g : gui) (e : exn) :
  in_file_data g <> [] ->
  return_column py python_float (in_file_data g) (sand_select g) = Raise e ->
  curve py python_float curve_fit asksaveasfilename pyplot g = ([], Some e).
Proof.
  intros Hdata Hw. unfold curve.
  destruct (in_file_data g); [contradiction|]. now rewrite Hw.
Qed.

Lemma curve_tension_error (g : gui) (water : list float) (e : exn) :
  in_file_data g <> [] ->
  return_column py python_float (in_file_data g) (sand_select g) = Ret water ->
  return_column py python_float (in_file_data g) (silt_select g) = Raise e ->
  curve py python_float curve_fit asksaveasfilename pyplot g = ([], Some e).
Proof.
  intros Hdata Hw Ht. unfold curve.
  destruct (in_file_data g); [contradiction|]. now rewrite Hw, Ht.
Qed.

(** X6: in a run of [curve], a warning is the only event of its run and
    no exception leaves that run; a file is written only with the path
    of the save dialog and the report of the parameters and covariance
    that the fit returned on the two extracted columns; and a run has
    at most two events. *)
Theorem curve_events (g : gui) :
  (forall title msg,
     In (showwarning title msg)
        (fst (curve py python_float curve_fit asksaveasfilename pyplot g)) ->
     curve py python_float curve_fit asksaveasfilename pyplot g =
     ([showwarning title msg], None)) /\
  (forall path text,
     In (write path text)
        (fst (curve py python_float curve_fit asksaveasfilename pyplot g)) ->
     exists water tension popt pcov,
       return_column py python_float (in_file_data g) (sand_select g) = Ret water /\
       return_column py python_float (in_file_data g) (silt_select g) = Ret tension /\
       fit_try python_float curve_fit g tension water = Ret (popt, pcov) /\
       path = asksaveasfilename /\ text = report popt pcov) /\
  length (fst (curve py python_float curve_fit asksaveasfilename pyplot g)) <= 2.
Proof.
  unfold curve.
  destruct (in_file_data g) as [|header rows] eqn:Hdata.
  { repeat split; [intros t m Hin|intros pa te Hin|cbn; lia]; in_events Hin.
    now injection Hin as <- <-. }
  rewrite <- Hdata.
  destruct (return_column py python_float (in_file_data g) (sand_select g))
    as [water|e] eqn:Hw.
  2:{ repeat split; [intros t m Hin|intros pa te Hin|cbn; lia]; in_events Hin. }
  destruct (return_column py python_float (in_file_data g) (silt_select g))
    as [tension|e] eqn:Ht.
  2:{ repeat split; [intros t m Hin|intros pa te Hin|cbn; lia]; in_events Hin. }
  destruct (str_eqb (model_select g) (lit "")).
  { repeat split; [intros t m Hin|intros pa te Hin|cbn; lia]; in_events Hin.
    now injection Hin as <- <-. }
  unfold fit_guarded.
  destruct (fit_try python_float curve_fit g tension water)
    as [[popt pcov]|[cls msg|cls]] eqn:Hfit.
  - unfold save_and_plot.
    destruct (str_eqb asksaveasfilename (lit "")), tension as [|t0 ts];
      (repeat split; [intros t m Hin|intros pa te Hin|cbn; lia]; in_events Hin);
      injection Hin as <- <-; eexists water, _, popt, pcov;
      repeat split; eassumption.
  - repeat split; [intros t m Hin|intros pa te Hin|cbn; lia]; in_events Hin.
    now injection Hin as <- <-.
  - repeat split; [intros t m Hin|intros pa te Hin|cbn; lia]; in_events Hin.
Qed.

(** X7: an error of the column extraction is not caught by [curve]: the
    exception leaves the run with no warning shown, whatever model is
    selected.  A water column name missing from the header raises the
    ValueError of [list.index]; with the water column read, a missing
    tension column name does the same; a data row too short for the
    water column raises IndexError, and a kept cell of the water column
    that [float] refuses raises the exception of [float], each when
    [float] has read the kept cells of the rows before. *)
Theorem curve_column_errors_escape
    (g : gui) (header : list str) (rows : list (list str)) :
  in_file_data g = header :: rows ->
  (~ In (sand_select g) header ->
   curve py python_float curve_fit asksaveasfilename pyplot g =
   ([], Some (Exception_ "ValueError" (not_in_list py (sand_select g))))) /\
  (forall water,
     return_column py python_float (in_file_data g) (sand_select g) = Ret water ->
     ~ In (silt_select g) header ->
     curve py python_float curve_fit asksaveasfilename pyplot g =
     ([], Some (Exception_ "ValueError" (not_in_list py (silt_select g))))) /\
  (forall idx before short after values,
     index py (sand_select g) header = Ret idx ->
     rows = before ++ short :: after ->
     Forall (fun row => idx < length row) before ->
     traverse python_float (filter (keeps py) (column_cells idx before)) =
     Ret values ->
     length short <= idx ->
     curve py python_float curve_fit asksaveasfilename pyplot g =
     ([], Some IndexError)) /\
  (forall idx before row after values cell e,
     index py (sand_select g) header = Ret idx ->
     rows = before ++ row :: after ->
     Forall (fun row => idx < length row) before ->
     traverse python_float (filter (keeps py) (column_cells idx before)) =
     Ret values ->
     nth_error row idx = Some cell -> keeps py cell = true ->
     python_float cell = Raise e ->
     curve py python_float curve_fit asksaveasfilename pyplot g =
     ([], Some e)).
Proof.
  intros Hdata.
  assert (Hne : in_file_data g <> []) by (rewrite Hdata; discriminate).
  split; [|split; [|split]].
  - intros Hnot. apply curve_water_error; [exact Hne|].
    rewrite Hdata. now apply return_column_no_column.
  - intros water Hw Hnot. apply (curve_tension_error g water); try assumption.
    rewrite Hdata. now apply return_column_no_column.
  - intros idx before short after values Hidx -> Hlong Hread Hshort.
    apply curve_water_error; [exact Hne|].
    rewrite Hdata, (return_column_at py python_float _ _ _ _ Hidx).
    rewrite (column_values_short py python_float idx before short after Hlong Hshort).
    now rewrite Hread.
  - intros idx before row after values cell e Hidx -> Hlong Hread Hcell Hkeep He.
    apply curve_water_error; [exact Hne|].
    rewrite Hdata, (return_column_at py python_float _ _ _ _ Hidx).
    rewrite (column_values_refused py python_float idx before row after cell e
               Hlong Hcell Hkeep He).
    now rewrite Hread.
Qed.

(** X8: when the first initial value, qs, is not a number for [float],
    the run ends with the "Fit Error" warning carrying the message of
    that exception, for each of the three models and whatever
    [curve_fit] would do: it is not reached. *)
Theorem curve_bad_initial_value
    (g : gui) (water tension : list float) (cls : string) (msg : str) :
  in_file_data g <> [] ->
  return_column py python_float (in_file_data g) (sand_select g) = Ret water ->
  return_column py python_float (in_file_data g) (silt_select g) = Ret tension ->
  model_select g <> lit "" ->
  python_float (qs g) = Raise (Exception_ cls msg) ->
  curve py python_float curve_fit asksaveasfilename pyplot g =
  ([showwarning " Fit Error" msg], None).
Proof.
  intros Hdata Hw Ht Hm Hqs.
  rewrite (curve_after_columns _ _ _ _ _ g water tension Hdata Hw Ht Hm).
  unfold fit_guarded, fit_try.
  destruct (str_eqb (model_select g) (lit "Van Genuchten Model"));
    [|destruct (str_eqb (model_select g) (lit "Camopbell Model"))];
    rewrite Hqs; reflexivity.
Qed.

(** X9: a run reads only the entries of the selected model: qs, qr,
    alpha and n for Van Genuchten; qs, he and Campbell_b for Campbell;
    qs, qr, lamda and sib for any other model name.  Two windows that
    agree on the table, the selections and those entries run alike,
    whatever the other entries hold. *)
Theorem curve_reads_the_model_entries (g g' : gui) :
  in_file_data g = in_file_data g' ->
  sand_select g = sand_select g' ->
  silt_select g = silt_select g' ->
  model_select g = model_select g' ->
  qs g = qs g' ->
  (model_select g = lit "Van Genuchten Model" ->
   qr g = qr g' /\ alpha g = alpha g' /\ n g = n g') ->
  (model_select g = lit "Camopbell Model" ->
   he g = he g' /\ Campbell_b g = Campbell_b g') ->
  (model_select g <> lit "Van Genuchten Model" ->
   model_select g <> lit "Camopbell Model" ->
   qr g = qr g' /\ lamda g = lamda g' /\ sib g = sib g') ->
  curve py python_float curve_fit asksaveasfilename pyplot g =
  curve py python_float curve_fit asksaveasfilename pyplot g'.
Proof.
  intros Hd Hs Hsi Hm Hqs HVG HC HBC.
  unfold curve, fit_guarded, fit_try, save_and_plot.
  rewrite <- Hd, <- Hs, <- Hsi, <- Hm, <- Hqs.
  destruct (str_eqb_spec (model_select g) (lit "Van Genuchten Model")) as [E1|E1].
  - destruct (HVG E1) as (<- & <- & <-). reflexivity.
  - destruct (str_eqb_spec (model_select g) (lit "Camopbell Model")) as [E2|E2].
    + destruct (HC E2) as (<- & <-). reflexivity.
    + destruct (HBC E1 E2) as (<- & <- & <-). reflexivity.
Qed.
End CurveRuns.

Lemma curve_events_witness :
  exists water tension popt pcov,
    return_column sample_interpreter sample_float table_unequal (lit "water") =
    Ret water /\
    return_column sample_interpreter sample_float table_unequal (lit "tension") =
    Ret tension /\
    fit_try sample_float (fun _ _ _ p0 => Ret (p0, []))
      (window table_unequal "water" "tension" "Camopbell Model" "1")
      tension water = Ret (popt, pcov) /\
    lit "fit.txt" = lit "fit.txt" /\
    report [0.5; 1; 4]%float [] = report popt pcov.
Proof.
  apply (proj1 (proj2 (curve_events sample_interpreter sample_float
                         (fun _ _ _ p0 => Ret (p0, [])) (lit "fit.txt")
                         (fun _ _ _ _ => None)
                         (window table_unequal "water" "tension"
                            "Camopbell Model" "1")))).
  left. reflexivity.
Defined.

Lemma curve_column_errors_escape_witness :
  curve sample_interpreter sample_float (fun _ _ _ p0 => Ret (p0, []))
    (lit "fit.txt") (fun _ _ _ _ => None)
    (window table_unequal "" "tension" "" "1") =
  ([], Some (Exception_ "ValueError" (lit "'' is not in list"))) /\
  curve sample_interpreter sample_float (fun _ _ _ p0 => Ret (p0, []))
    (lit "fit.txt") (fun _ _ _ _ => None)
    (window table_unequal "water" "depth" "" "1") =
  ([], Some (Exception_ "ValueError" (lit "'depth' is not in list"))) /\
  curve sample_interpreter sample_float (fun _ _ _ p0 => Ret (p0, []))
    (lit "fit.txt") (fun _ _ _ _ => None)
    (window (table [["water"; "tension"]; ["0.3"; "10"]; []]%string)
       "water" "tension" "" "1") =
  ([], Some IndexError) /\
  curve sample_interpreter sample_float (fun _ _ _ p0 => Ret (p0, []))
    (lit "fit.txt") (fun _ _ _ _ => None)
    (window ([lit "water"; lit "tension"] :: [lit "0.3"; lit "10"] ::
             [[178%N]; lit "7"] :: nil)
       "water" "tension" "" "1") =
  ([], Some (Exception_ "ValueError"
               (lit "could not convert string to float: '" ++ [178%N] ++ lit "'"))).
Proof.
  split; [|split; [|split]].
  - apply (proj1 (curve_column_errors_escape
                    sample_interpreter sample_float (fun _ _ _ p0 => Ret (p0, []))
                    (lit "fit.txt") (fun _ _ _ _ => None)
                    (window table_unequal "" "tension" "" "1")
                    (map lit ["water"; "tension"]%string)
                    (table [["0.3"; "10"]; ["0.2"; "-5"]]%string) eq_refl)).
    cbv [In sand_select window map]. intuition discriminate.
  - apply (proj1 (proj2 (curve_column_errors_escape
                    sample_interpreter sample_float (fun _ _ _ p0 => Ret (p0, []))
                    (lit "fit.txt") (fun _ _ _ _ => None)
                    (window table_unequal "water" "depth" "" "1")
                    (map lit ["water"; "tension"]%string)
                    (table [["0.3"; "10"]; ["0.2"; "-5"]]%string) eq_refl))
             [0.3; 0.2]%float).
    + reflexivity.
    + cbv [In silt_select window map]. intuition discriminate.
  - apply (proj1 (proj2 (proj2 (curve_column_errors_escape
                    sample_interpreter sample_float (fun _ _ _ p0 => Ret (p0, []))
                    (lit "fit.txt") (fun _ _ _ _ => None)
                    (window (table [["water"; "tension"]; ["0.3"; "10"]; []]%string)
                       "water" "tension" "" "1")
                    (map lit ["water"; "tension"]%string)
                    (table [["0.3"; "10"]; []]%string) eq_refl)))
             0 (table [["0.3"; "10"]]%string) [] [] [0.3%float]).
    + reflexivity.
    + reflexivity.
    + repeat constructor.
    + reflexivity.
    + cbn. lia.
  - apply (proj2 (proj2 (proj2 (curve_column_errors_escape
                    sample_interpreter sample_float (fun _ _ _ p0 => Ret (p0, []))
                    (lit "fit.txt") (fun _ _ _ _ => None)
                    (window ([lit "water"; lit "tension"] :: [lit "0.3"; lit "10"] ::
                             [[178%N]; lit "7"] :: nil)
                       "water" "tension" "" "1")
                    (map lit ["water"; "tension"]%string)
                    ([lit "0.3"; lit "10"] :: [[178%N]; lit "7"] :: nil) eq_refl)))
             0 (table [["0.3"; "10"]]%string) [[178%N]; lit "7"] [] [0.3%float]
             [178%N]).
    + reflexivity.
    + reflexivity.
    + repeat constructor.
    + reflexivity.
    + reflexivity.
    + reflexivity.
    + reflexivity.
Defined.

Lemma curve_bad_initial_value_witness :
  curve sample_interpreter
    (fun s => if str_eqb s (lit "0.5")
              then Raise (Exception_ "ValueError" (lit "could not convert string to float"))
              else sample_float s)
    (fun _ _ _ p0 => Ret (p0, [])) (lit "fit.txt") (fun _ _ _ _ => None)
    (window table_unequal "water" "tension" "Camopbell Model" "1") =
  ([showwarning " Fit Error" (lit "could not convert string to float")], None).
Proof.
  apply (curve_bad_initial_value _ _ _ _ _ _ [0.3; 0.2]%float [10]%float
           "ValueError"%string);
    try reflexivity; discriminate.
Defined.

Lemma curve_reads_the_model_entries_witness :
  curve sample_interpreter sample_float
    (fun _ _ _ p0 => Ret (p0, [])) (lit "fit.txt") (fun _ _ _ _ => None)
    (window table_unequal "water" "tension" "Van Genuchten Model" "1") =
  curve sample_interpreter sample_float
    (fun _ _ _ p0 => Ret (p0, [])) (lit "fit.txt") (fun _ _ _ _ => None)
    (window table_unequal "water" "tension" "Van Genuchten Model" "oops").
Proof.
  apply curve_reads_the_model_entries; try reflexivity.
  - intros _. repeat split.
  - discriminate.
  - intros Hne. now contradiction Hne.
Defined.

(** ** The model functions in exact arithmetic: range, shape, scaling *)

Section ExactShapes.
Import Exact ExactFacts.
Local Open Scope R_scope.

Lemma Campbell_exponent (b : R) : b <> 0 -> - (1) / b = - (1 / b).
Proof. intros Hb. field. exact Hb. Qed.

Lemma ratio_above_one (x t : R) : 0 < t -> t < x -> 1 < x / t.
Proof.
  intros Ht Hx. apply (Rmult_lt_reg_r t); [assumption|].
  unfold Rdiv. rewrite Rmult_assoc, Rinv_l by lra. lra.
Qed.

Lemma ratio_le (x1 x2 t : R) : 0 < t -> x1 <= x2 -> x1 / t <= x2 / t.
Proof.
  intros Ht Hx. unfold Rdiv. apply Rmult_le_compat_r; [|assumption].
  left. now apply Rinv_0_lt_compat.
Qed.

(** X10: for qs >= 0, he > 0 and b > 0 the Campbell prediction is
    defined at every tension, lies between 0 and qs, and is
    non-increasing in the tension. *)
Theorem Campbell_nonincreasing (x1 x2 qs he b : R) :
  0 <= qs -> 0 < he -> 0 < b -> x1 <= x2 ->
  exists y1 y2,
    Campbell x1 qs he b = Some y1 /\ Campbell x2 qs he b = Some y2 /\
    0 <= y2 /\ y2 <= y1 /\ y1 <= qs.
Proof.
  intros Hqs Hhe Hb Hx.
  assert (Hb0 : b <> 0) by lra.
  assert (Hinv : 0 < 1 / b) by (apply Rdiv_lt_0_compat; lra).
  destruct (Rle_lt_dec x2 he) as [H2|H2].
  - exists qs, qs. repeat split; try lra;
      apply (Campbell_branches _ qs he b Hhe Hb0); lra.
  - destruct (Campbell_branches x2 qs he b Hhe Hb0) as [_ E2].
    rewrite (E2 H2), (Campbell_exponent b Hb0). clear E2.
    pose proof (ratio_above_one x2 he Hhe H2) as Hr2.
    pose proof (Rpower_pos (x2 / he) (- (1 / b))) as Hp2.
    pose proof (Rpower_neg_le_one (x2 / he) (1 / b)) as Hle2.
    destruct (Rle_lt_dec x1 he) as [H1|H1].
    + destruct (Campbell_branches x1 qs he b Hhe Hb0) as [E1 _].
      rewrite (E1 H1). do 2 eexists. repeat split; nra.
    + destruct (Campbell_branches x1 qs he b Hhe Hb0) as [_ E1].
      rewrite (E1 H1), (Campbell_exponent b Hb0). clear E1.
      pose proof (ratio_above_one x1 he Hhe H1) as Hr1.
      pose proof (ratio_le x1 x2 he Hhe Hx) as Hr.
      pose proof (Rpower_neg_antitone (x1 / he) (x2 / he) (1 / b)) as Hanti.
      pose proof (Rpower_neg_le_one (x1 / he) (1 / b)) as Hle1.
      do 2 eexists. repeat split; nra.
Qed.

Lemma Campbell_nonincreasing_witness :
  exists y1 y2,
    Campbell 2 (1/2) 1 4 = Some y1 /\ Campbell 20 (1/2) 1 4 = Some y2 /\
    0 <= y2 /\ y2 <= y1 /\ y1 <= 1/2.
Proof. apply Campbell_nonincreasing; lra. Defined.

(** X11: for qs >= qr the Van Genuchten prediction (alpha > 0, n > 1,
    tension x >= 0) and the Brooks and Corey prediction (lambda > 0,
    sib > 0, any tension) lie between the residual and the saturated
    water content. *)
Theorem VG_BC_between_qr_and_qs :
  (forall x qs qr alpha n : R,
     qr <= qs -> 0 < alpha -> 1 < n -> 0 <= x ->
     exists y, VG x qs qr alpha n = Some y /\ qr <= y <= qs) /\
  (forall x qs qr lamda sib : R,
     qr <= qs -> 0 < lamda -> 0 < sib ->
     exists y, BC x qs qr lamda sib = Some y /\ qr <= y <= qs).
Proof.
  split.
  - intros x qs qr alpha n Hq Ha Hn Hx.
    destruct (VG_value x qs qr alpha n Ha Hn Hx) as (a & _ & Hpos & ->).
    eexists. split; [reflexivity|].
    pose proof (exponent_in_unit n Hn) as Hb.
    assert (Hone : 1 <= Rpower (1 + a) (1 - 1 / n)).
    { apply Rle_trans with (Rpower 1 (1 - 1 / n));
        [rewrite Rpower_one; lra | apply Rle_Rpower_l; lra]. }
    set (p := Rpower (1 + a) (1 - 1 / n)) in *.
    assert (Hse : 0 < 1 / p <= 1).
    { split; [apply Rdiv_lt_0_compat; lra|].
      apply (Rmult_le_reg_r p); [lra|].
      unfold Rdiv. rewrite Rmult_assoc, Rinv_l by lra. lra. }
    nra.
  - intros x qs qr lamda sib Hq Hl Hs.
    destruct (Rle_lt_dec x sib) as [Hx|Hx].
    + exists qs. split; [|lra]. apply (BC_branches x qs qr lamda sib Hs). lra.
    + destruct (BC_branches x qs qr lamda sib Hs) as [_ E].
      rewrite (E Hx). eexists. split; [reflexivity|].
      pose proof (ratio_above_one x sib Hs Hx) as Hr.
      pose proof (Rpower_pos (x / sib) (- lamda)) as Hp.
      pose proof (Rpower_neg_le_one (x / sib) lamda) as Hle.
      nra.
Qed.

Lemma VG_BC_between_qr_and_qs_witness :
  (exists y, VG 10 (1/2) (1/5) (1/100) 2 = Some y /\ 1/5 <= y <= 1/2) /\
  (exists y, BC 30 (1/2) (1/5) 1 15 = Some y /\ 1/5 <= y <= 1/2).
Proof.
  split.
  - apply (proj1 VG_BC_between_qr_and_qs); lra.
  - apply (proj2 VG_BC_between_qr_and_qs); lra.
Defined.

Lemma le_scaled (c x t : R) : 0 < c -> le (c * x) (c * t) = le x t.
Proof.
  intros Hc. unfold le.
  destruct (Rle_dec (c * x) (c * t)) as [H1|H1], (Rle_dec x t) as [H2|H2];
    try reflexivity; exfalso.
  - apply H2. now apply (Rmult_le_reg_l c).
  - apply H1. apply Rmult_le_compat_l; lra.
Qed.

Lemma div_scaled (c x t : R) : c <> 0 -> div (c * x) (c * t) = div x t.
Proof.
  intros Hc. unfold div.
  destruct (Req_dec_T (c * t) 0) as [H1|H1], (Req_dec_T t 0) as [H2|H2];
    try reflexivity.
  - exfalso. apply Rmult_integral in H1. tauto.
  - exfalso. apply H1. subst t. ring.
  - f_equal. field. split; assumption.
Qed.

(** X12: the unit of the tension does not matter.  Scaling the tension
    and the threshold (he, sib) by the same c > 0 leaves the Campbell
    and the Brooks and Corey predictions unchanged, and scaling the
    tension by c with alpha divided by c leaves the Van Genuchten
    prediction unchanged; this holds for all parameters, where the
    prediction has no value included. *)
Theorem models_scale_with_the_tension_unit (c : R) :
  0 < c ->
  (forall x qs he b, Campbell (c * x) qs (c * he) b = Campbell x qs he b) /\
  (forall x qs qr lamda sib,
     BC (c * x) qs qr lamda (c * sib) = BC x qs qr lamda sib) /\
  (forall x qs qr alpha n,
     VG (c * x) qs qr (alpha / c) n = VG x qs qr alpha n).
Proof.
  intros Hc. assert (Hc0 : c <> 0) by lra. split; [|split].
  - intros x qs he b. unfold Campbell. exact_ops.
    now rewrite le_scaled, div_scaled.
  - intros x qs qr lamda sib. unfold BC. exact_ops.
    now rewrite le_scaled, div_scaled.
  - intros x qs qr alpha n. unfold VG. exact_ops.
    replace (alpha / c * (c * x)) with (alpha * x) by (field; exact Hc0).
    reflexivity.
Qed.

Lemma models_scale_with_the_tension_unit_witness :
  Campbell (100 * 3) (1/2) (100 * 1) 4 = Campbell 3 (1/2) 1 4.
Proof. apply (models_scale_with_the_tension_unit 100). lra. Defined.

(** X13: the Campbell function is the Brooks and Corey function with no
    residual water content: for b <> 0, Campbell(x, qs, he, b) is
    BC(x, qs, 0, 1/b, he) at every tension and threshold. *)
Theorem Campbell_is_BC_without_residual (x qs he b : R) :
  b <> 0 -> Campbell x qs he b = BC x qs 0 (1 / b) he.
Proof.
  intros Hb. unfold Campbell, BC. exact_ops.
  destruct (le x he); [reflexivity|].
  destruct (div x he) as [r|]; [|reflexivity]. cbn [bind].
  rewrite div_defined by assumption. cbn [bind].
  rewrite (Campbell_exponent b Hb).
  destruct (pow r (- (1 / b))) as [p|]; [|reflexivity]. cbn [bind].
  unfold where_. f_equal. ring.
Qed.

Lemma Campbell_is_BC_without_residual_witness :
  Campbell 3 (1/2) 1 4 = BC 3 (1/2) 0 (1 / 4) 1.
Proof. apply Campbell_is_BC_without_residual. lra. Defined.
End ExactShapes.

(** ** The significance symbol and the models on binary64: order and NaN *)

Section B64Edges.
Import B64 B64Order.
Local Open Scope float_scope.

Lemma SFltb_SFleb_trans (x y z : spec_float) :
  SFltb x y = true -> SFleb y z = true -> SFltb x z = true.
Proof.
  unfold SFleb, SFltb.
  destruct x as [sx|sx| |sx mx ex], y as [sy|sy| |sy my ey],
           z as [sz|sz| |sz mz ez];
    try destruct sx; try destruct sy; try destruct sz;
    cbn [SFcompare]; intros Hxy Hyz;
    try discriminate; try reflexivity; by_compare.
Qed.

Lemma ltb_leb_trans (x y z : float) :
  (x <? y) = true -> (y <=? z) = true -> (x <? z) = true.
Proof.
  rewrite !FloatAxioms.ltb_spec, FloatAxioms.leb_spec.
  apply SFltb_SFleb_trans.
Qed.

Lemma is_nan_eq (x : float) : is_nan x = true -> x = nan.
Proof.
  unfold is_nan. rewrite FloatAxioms.eqb_spec. unfold SFeqb. intros Hnan.
  apply Prim2SF_inj. change (Prim2SF nan) with S754_nan.
  destruct (Prim2SF x) as [s|s| |s m e] eqn:Hx; [| |reflexivity|];
    rewrite SFcompare_refl in Hnan by discriminate; discriminate Hnan.
Qed.

(** X14: the significance symbol never loses stars when the p-value
    gets smaller: for p <= q the symbol of p has at least as many stars
    as the symbol of q. *)
Theorem sig_symbol_antitone (p q : float) :
  (p <=? q) = true -> (stars (sig_symbol q) <= stars (sig_symbol p))%nat.
Proof.
  intros Hpq.
  assert (Hup : forall c, (c <? p) = true -> (c <? q) = true)
    by (intros c Hc; exact (ltb_leb_trans c p q Hc Hpq)).
  unfold sig_symbol.
  destruct (0.05 <? p) eqn:H5; [rewrite (Hup _ H5); apply Nat.le_refl|].
  destruct (0.01 <? p) eqn:H1.
  { rewrite (Hup _ H1). destruct (0.05 <? q); cbn; lia. }
  destruct (0.001 <? p) eqn:H01.
  { rewrite (Hup _ H01). destruct (0.05 <? q), (0.01 <? q); cbn; lia. }
  destruct (0.05 <? q), (0.01 <? q), (0.001 <? q); cbn; lia.
Qed.

Lemma sig_symbol_antitone_witness :
  (stars (sig_symbol 0.03) <= stars (sig_symbol 0.0004))%nat.
Proof. apply sig_symbol_antitone. reflexivity. Defined.

(** X15: a value that is no probability still gets a symbol, and the
    strongest one: [sig_symbol] returns "***" for a NaN and for every
    p <= 0, negative values and both zeros included. *)
Theorem sig_symbol_of_no_probability (p : float) :
  is_nan p = true \/ (p <=? 0) = true -> sig_symbol p = "***"%string.
Proof.
  unfold sig_symbol. intros [Hnan|Hneg].
  - assert (Hc : forall c, (c <? p) = false).
    { intros c. destruct (c <? p) eqn:Hc; [|reflexivity].
      apply ltb_not_nan in Hc. congruence. }
    now rewrite !Hc.
  - rewrite (leb_below p 0 0.05 Hneg eq_refl).
    rewrite (leb_below p 0 0.01 Hneg eq_refl).
    now rewrite (leb_below p 0 0.001 Hneg eq_refl).
Qed.

Lemma sig_symbol_of_no_probability_witness :
  sig_symbol nan = "***"%string /\ sig_symbol (-0.5) = "***"%string.
Proof.
  split.
  - apply sig_symbol_of_no_probability. left. reflexivity.
  - apply sig_symbol_of_no_probability. right. reflexivity.
Defined.

Lemma opp_not_zero (x : float) : (x =? 0) = false -> (- x =? 0) = false.
Proof.
  rewrite !FloatAxioms.eqb_spec, FloatAxioms.opp_spec. unfold SFeqb.
  change (Prim2SF 0) with (S754_zero false).
  destruct (Prim2SF x) as [s|s| |s m e]; try destruct s; cbn; congruence.
Qed.

Lemma pow_nan_base (y : float) : (y =? 0) = false -> pow nan y = Some nan.
Proof. intros Hy. unfold pow. rewrite Hy. reflexivity. Qed.

Lemma leb_nan_l (y : float) : (nan <=? y) = false.
Proof.
  rewrite FloatAxioms.leb_spec. change (Prim2SF nan) with S754_nan. reflexivity.
Qed.

Lemma leb_nan_r (x : float) : (x <=? nan) = false.
Proof.
  rewrite FloatAxioms.leb_spec. change (Prim2SF nan) with S754_nan.
  unfold SFleb. destruct (Prim2SF x); reflexivity.
Qed.

Lemma div_nan_l (y : float) : nan / y = nan.
Proof.
  apply Prim2SF_inj. rewrite FloatAxioms.div_spec.
  change (Prim2SF nan) with S754_nan. reflexivity.
Qed.

Lemma div_nan_r (x : float) : x / nan = nan.
Proof.
  apply Prim2SF_inj. rewrite FloatAxioms.div_spec.
  change (Prim2SF nan) with S754_nan.
  destruct (Prim2SF x); reflexivity.
Qed.

Lemma mul_nan_r (x : float) : x * nan = nan.
Proof.
  apply Prim2SF_inj. rewrite FloatAxioms.mul_spec.
  change (Prim2SF nan) with S754_nan.
  destruct (Prim2SF x); reflexivity.
Qed.

Lemma add_nan_r (x : float) : x + nan = nan.
Proof.
  apply Prim2SF_inj. rewrite FloatAxioms.add_spec.
  change (Prim2SF nan) with S754_nan.
  destruct (Prim2SF x); reflexivity.
Qed.

(** X16: on binary64 a NaN never takes the saturated branch of the
    Brooks and Corey function: when the tension or the threshold sib is
    a NaN and lambda is not zero, the prediction is NaN, not qs. *)
Theorem BC_nan_is_not_saturated (x qs qr lamda sib : float) :
  (lamda =? 0) = false ->
  is_nan x = true \/ is_nan sib = true ->
  BC x qs qr lamda sib = Some nan.
Proof.
  intros Hl Hnan. apply opp_not_zero in Hl.
  unfold BC. cbn [fle fdiv fneg fpow fmul fadd fsub float_arith].
  destruct Hnan as [Hx|Hs]; [apply is_nan_eq in Hx | apply is_nan_eq in Hs]; subst.
  - rewrite leb_nan_l, div_nan_l. cbn [where_ bind].
    rewrite (pow_nan_base _ Hl). cbn [bind].
    now rewrite mul_nan_r, add_nan_r.
  - rewrite leb_nan_r, div_nan_r. cbn [where_ bind].
    rewrite (pow_nan_base _ Hl). cbn [bind].
    now rewrite mul_nan_r, add_nan_r.
Qed.

Lemma BC_nan_is_not_saturated_witness :
  BC nan 0.5 0.2 1 15 = Some nan /\ BC 10 0.5 0.2 1 nan = Some nan.
Proof.
  split.
  - apply BC_nan_is_not_saturated; [reflexivity | left; reflexivity].
  - apply BC_nan_is_not_saturated; [reflexivity | right; reflexivity].
Defined.
End B64Edges.

(** ** Loading a file: what the table holds and how a load fails *)

Section LoadFacts.
Local Open Scope res_scope.
Variable py : interpreter.

Lemma split_from_skip (sep t s cur : str) :
  split_from sep (t ++ s) (length t) cur = split_from sep s 0 cur.
Proof. induction t as [|c t IH]; [reflexivity|]. exact IH. Qed.

Lemma split_from_cons (sep s : str) (skip : nat) (cur : str) :
  exists piece pieces, split_from sep s skip cur = piece :: pieces.
Proof.
  revert skip cur. induction s as [|c s IH]; intros skip cur.
  - now exists cur, [].
  - cbn [split_from]. destruct skip as [|k]; [|apply IH].
    destruct (startswith sep (c :: s)); [now eexists _, _ | apply IH].
Qed.

Lemma join_cons (sep piece : str) (pieces : list str) :
  pieces <> [] ->
  join sep (piece :: pieces) = piece ++ sep ++ join sep pieces.
Proof. destruct pieces; [contradiction | reflexivity]. Qed.

(** Joining the pieces of a split by the separator gives the text back. *)
Lemma split_from_join (sep : str) (bound : nat) :
  sep <> [] ->
  forall s cur,
    length s <= bound ->
    join sep (split_from sep s 0 cur) = cur ++ s.
Proof.
  intros Hsep. induction bound as [|bound IH]; intros s cur Hlen.
  - destruct s; [cbn; now rewrite app_nil_r | cbn in Hlen; lia].
  - destruct s as [|c s]; [cbn; now rewrite app_nil_r|].
    cbn [split_from]. destruct (startswith sep (c :: s)) eqn:Hp.
    + destruct (startswith_append _ _ Hp) as [t Ht].
      destruct sep as [|c0 sep']; [contradiction|].
      cbn [app] in Ht. injection Ht as <- ->.
      replace (length (c :: sep') - 1) with (length sep')
        by (cbn [length]; lia).
      rewrite split_from_skip.
      destruct (split_from_cons (c :: sep') t 0 []) as (q & qs' & Hq).
      rewrite join_cons by (rewrite Hq; discriminate).
      rewrite IH.
      * reflexivity.
      * cbn [length] in Hlen. rewrite length_app in Hlen. lia.
    + rewrite IH by (cbn [length] in Hlen; lia).
      now rewrite <- app_assoc.
Qed.

Lemma lstrip_parts (s : str) :
  exists a, s = a ++ lstrip py s /\ all_space py a = true.
Proof.
  induction s as [|c s (a & Ha & Hsp)]; [now exists []|].
  cbn [lstrip]. destruct (is_space py c) eqn:Hc.
  - exists (c :: a). cbn. unfold all_space in Hsp. now rewrite Hc, Hsp, <- Ha.
  - now exists [].
Qed.

Lemma rstrip_parts (s : str) :
  exists b, s = rstrip py s ++ b /\ all_space py b = true.
Proof.
  induction s as [|c s (b & Hb & Hsp)]; [now exists []|].
  cbn [rstrip]. destruct (rstrip py s) as [|d r].
  - cbn [app] in Hb. subst b. destruct (is_space py c) eqn:Hc.
    + exists (c :: s). cbn. unfold all_space in Hsp. now rewrite Hc, Hsp.
    + now exists s.
  - exists b. split; [|exact Hsp]. cbn [app] in *. now rewrite <- Hb.
Qed.

Lemma strip_parts (s : str) :
  exists a b,
    s = a ++ strip py s ++ b /\ all_space py a = true /\ all_space py b = true.
Proof.
  destruct (lstrip_parts s) as (a & Ha & Hsa).
  destruct (rstrip_parts (lstrip py s)) as (b & Hb & Hsb).
  exists a, b. unfold strip. now rewrite <- Hb, <- Ha.
Qed.

Lemma lstrip_head (s : str) (c : char) (t : str) :
  lstrip py s = c :: t -> is_space py c = false.
Proof.
  induction s as [|d s IH]; [discriminate|]. cbn [lstrip].
  destruct (is_space py d) eqn:Hd; [exact IH|].
  intros Heq. injection Heq as <- _. exact Hd.
Qed.

Lemma rstrip_head (c : char) (s : str) :
  is_space py c = false -> exists t, rstrip py (c :: s) = c :: t.
Proof.
  intros Hc. cbn [rstrip]. destruct (rstrip py s) as [|d r].
  - rewrite Hc. now exists [].
  - now exists (d :: r).
Qed.

Lemma rstrip_last (s : str) (d : char) (r : str) (x : char) :
  rstrip py s = d :: r -> is_space py (last (d :: r) x) = false.
Proof.
  revert d r. induction s as [|c s IH]; intros d r; [discriminate|].
  cbn [rstrip]. destruct (rstrip py s) as [|d' r'] eqn:Hs.
  - destruct (is_space py c) eqn:Hc; [discriminate|].
    intros Heq. injection Heq as <- <-. exact Hc.
  - intros Heq. injection Heq as <- <-.
    change (last (c :: d' :: r') x) with (last (d' :: r') x).
    now apply IH.
Qed.

(** A stripped text has no whitespace at either end. *)
Lemma strip_bare (s : str) : bare py (strip py s) = true.
Proof.
  unfold strip. destruct (lstrip py s) as [|c t] eqn:Hl; [reflexivity|].
  pose proof (lstrip_head s c t Hl) as Hc.
  destruct (rstrip_head c t Hc) as [u Hu]. rewrite Hu.
  unfold bare. rewrite Hc, (rstrip_last (c :: t) c u c Hu). reflexivity.
Qed.

Lemma strip_blank (s : str) : all_space py s = true -> strip py s = [].
Proof.
  intros Hs. unfold strip.
  assert (Hl : lstrip py s = []).
  { induction s as [|c s IH]; [reflexivity|]. cbn [lstrip].
    cbn in Hs. apply andb_prop in Hs. destruct Hs as [Hc Hs].
    rewrite Hc. now apply IH. }
  now rewrite Hl.
Qed.

Lemma split_rows_map (c : char) (sep : str) (lines : list str) :
  split_rows py (c :: sep) lines =
  Ret (map (fun line => split_from (c :: sep) (strip py line) 0 []) lines).
Proof.
  induction lines as [|line rest IH]; [reflexivity|].
  cbn [split_rows split rbind map]. now rewrite IH.
Qed.

Lemma append_last_split (cur a b : str) (c : char) :
  cur ++ [c] = a ++ b -> b <> [] ->
  exists b0, b = b0 ++ [c] /\ cur = a ++ b0.
Proof.
  revert cur. induction a as [|x a IH]; intros cur Heq Hb.
  - exists cur. cbn in Heq. now split.
  - destruct cur as [|y cur]; cbn in Heq.
    + injection Heq as _ Heq. destruct a; [|discriminate].
      cbn in Heq. now subst b.
    + injection Heq as <- Heq. destruct (IH cur Heq Hb) as (b0 & -> & ->).
      now exists b0.
Qed.

Lemma piece_without_separator (sep cur s : str) :
  sep <> [] -> no_start_inside sep cur s -> ~ occurs_in sep cur.
Proof.
  intros Hsep Hinv (a & b & Hcur).
  assert (Hne : sep ++ b <> [])
    by (destruct sep; [contradiction | discriminate]).
  specialize (Hinv a (sep ++ b) Hcur Hne).
  rewrite <- app_assoc, startswith_of_append in Hinv. discriminate.
Qed.

Lemma split_from_pieces (sep : str) (bound : nat) :
  sep <> [] ->
  forall s cur,
    length s <= bound -> no_start_inside sep cur s ->
    Forall (fun piece => ~ occurs_in sep piece) (split_from sep s 0 cur).
Proof.
  intros Hsep. induction bound as [|bound IH]; intros s cur Hlen Hinv.
  - destruct s; [|cbn in Hlen; lia].
    constructor; [|constructor]. now apply (piece_without_separator sep cur []).
  - destruct s as [|c s].
    { constructor; [|constructor].
      now apply (piece_without_separator sep cur []). }
    cbn [split_from]. destruct (startswith sep (c :: s)) eqn:Hp.
    + constructor; [now apply (piece_without_separator sep cur (c :: s))|].
      destruct (startswith_append _ _ Hp) as [t Ht].
      destruct sep as [|c0 sep']; [contradiction|].
      cbn [app] in Ht. injection Ht as <- ->.
      replace (length (c :: sep') - 1) with (length sep')
        by (cbn [length]; lia).
      rewrite split_from_skip. apply IH.
      * cbn [length] in Hlen. rewrite length_app in Hlen. lia.
      * intros a b Hab Hb. destruct a; [|discriminate].
        cbn in Hab. now subst b.
    + apply IH; [cbn [length] in Hlen; lia|].
      intros a b Hab Hb.
      destruct (append_last_split cur a b c Hab Hb) as (b0 & -> & ->).
      rewrite <- app_assoc. cbn [app].
      destruct b0 as [|d b0]; [exact Hp|].
      apply (Hinv a (d :: b0) eq_refl). discriminate.
Qed.

Variable readlines : str -> res (list str).
Variable python_float : str -> res float.

Lemma load_file_rows (st : files) (entry filename : str)
    (line : str) (rest : list str) (c : char) (sep : str) :
  readlines filename = Ret (line :: rest) ->
  slice_1_m1 entry = c :: sep ->
  load_file py readlines st entry filename =
  ({| loaded_data :=
        map (fun l => split_from (c :: sep) (strip py l) 0 []) (line :: rest);
      in_file := filename;
      sand_values := split_from (c :: sep) (strip py line) 0 [];
      silt_values := split_from (c :: sep) (strip py line) 0 [] |}, [], None).
Proof.
  intros Hread Hsep. unfold load_file.
  rewrite Hread. cbn [rbind]. rewrite Hsep, split_rows_map. reflexivity.
Qed.

(** X17: a load of a file with at least one line, with a non-empty
    delimiter, shows nothing and sets the file name; the table gets one
    row per line, each with at least one cell, and the cells of a row
    joined by the delimiter are the line stripped: what is left of the
    line once the whitespace at its two ends is taken away, with no
    whitespace at either end; both selectors offer the cells of the
    first line. *)
Theorem load_file_keeps_the_lines (st : files) (entry filename : str)
    (lines : list str) :
  readlines filename = Ret lines ->
  lines <> [] ->
  slice_1_m1 entry <> [] ->
  exists data,
    load_file py readlines st entry filename =
    ({| loaded_data := data; in_file := filename;
        sand_values := hd [] data; silt_values := hd [] data |}, [], None) /\
    Forall2 (fun row line =>
               row <> [] /\
               bare py (join (slice_1_m1 entry) row) = true /\
               exists a b,
                 line = a ++ join (slice_1_m1 entry) row ++ b /\
                 all_space py a = true /\ all_space py b = true)
            data lines.
Proof.
  intros Hread Hlines Hsep.
  destruct lines as [|line rest]; [contradiction|].
  destruct (slice_1_m1 entry) as [|c sep] eqn:He; [contradiction|].
  eexists. split; [exact (load_file_rows st entry filename line rest c sep Hread He)|].
  clear Hread Hlines. generalize (line :: rest). intros ls.
  induction ls as [|l ls IH]; constructor; [|exact IH].
  rewrite (split_from_join (c :: sep) (length (strip py l)))
    by (discriminate || apply Nat.le_refl).
  cbn [app]. split; [|split].
  - destruct (split_from_cons (c :: sep) (strip py l) 0 []) as (q & qs' & ->).
    discriminate.
  - apply strip_bare.
  - apply strip_parts.
Qed.


(** X19: after a load, a whitespace-only line among the data lines is a
    row of one empty cell, so [return_column] never returns a value for
    a column other than the first: it raises IndexError, or the
    exception of [float] on a cell of an earlier row. *)
Theorem blank_line_breaks_later_columns
    (st : files) (entry filename : str) (lines : list str) (k : nat)
    (blank : str) :
  readlines filename = Ret lines ->
  slice_1_m1 entry <> [] ->
  nth_error lines (S k) = Some blank -> all_space py blank = true ->
  nth_error (loaded_data (fst (fst (load_file py readlines st entry filename))))
    (S k) = Some [[]] /\
  (forall col i values,
     index py col
       (hd [] (loaded_data (fst (fst (load_file py readlines st entry filename)))))
     = Ret (S i) ->
     return_column py python_float
       (loaded_data (fst (fst (load_file py readlines st entry filename)))) col
     <> Ret values) /\
  (forall col e,
     return_column py python_float
       (loaded_data (fst (fst (load_file py readlines st entry filename)))) col
     = Raise e ->
     e = IndexError \/ e = Exception_ "ValueError" (not_in_list py col) \/
     exists cell, python_float cell = Raise e).
Proof.
  intros Hread Hsep Hnth Hblank.
  destruct lines as [|line rest]; [discriminate|].
  destruct (slice_1_m1 entry) as [|c sep] eqn:He; [contradiction|].
  rewrite (load_file_rows st entry filename line rest c sep Hread He).
  cbn [fst loaded_data map hd nth_error] in *.
  assert (Hrow : nth_error
                   (map (fun l => split_from (c :: sep) (strip py l) 0 []) rest) k
                 = Some [[]]).
  { rewrite nth_error_map, Hnth. cbn [option_map].
    now rewrite (strip_blank blank Hblank). }
  split; [exact Hrow|]. split.
  - intros col i values Hidx.
    rewrite (return_column_at py python_float _ _ _ _ Hidx).
    apply column_values_never_returns. apply Exists_exists.
    exists [[]]. split; [now apply (nth_error_In _ k) | cbn; lia].
  - intros col e. unfold return_column. cbn [getitem nth_error rbind tl].
    destruct (index py col (split_from (c :: sep) (strip py line) 0 []))
      as [idx|e'] eqn:Hidx; cbn [rbind].
    + generalize (map (fun l => split_from (c :: sep) (strip py l) 0 []) rest).
      intros rows. induction rows as [|row rows IH]; [discriminate|].
      cbn [column_values]. unfold getitem.
      destruct (nth_error row idx) as [cell|]; cbn [rbind].
      * destruct (keeps py cell); [|exact IH].
        destruct (python_float cell) as [v|e''] eqn:Hv; cbn [rbind].
        -- destruct (column_values py python_float idx rows) as [vs|e''];
             [discriminate|].
           cbn [rbind]. intros Heq. apply IH. exact Heq.
        -- intros Heq. injection Heq as ->. right. right. now exists cell.
      * intros Heq. injection Heq as <-. now left.
    + intros Heq. injection Heq as <-. right. left.
      clear Hrow. induction (split_from (c :: sep) (strip py line) 0 [])
        as [|h t IH]; cbn [index] in Hidx.
      * now injection Hidx as <-.
      * destruct (str_eqb h col); [discriminate|].
        destruct (index py col t) as [j|e'']; [discriminate|].
        cbn [rbind] in Hidx. injection Hidx as <-. now apply IH.
Qed.


(** X21: after a load of a file with at least one line, with a
    non-empty delimiter, no cell of the table contains the delimiter. *)
Theorem loaded_cells_hold_no_delimiter
    (st : files) (entry filename : str) (lines : list str) :
  readlines filename = Ret lines ->
  lines <> [] ->
  slice_1_m1 entry <> [] ->
  Forall (Forall (fun cell => ~ occurs_in (slice_1_m1 entry) cell))
    (loaded_data (fst (fst (load_file py readlines st entry filename)))).
Proof.
  intros Hread Hlines Hsep.
  destruct lines as [|line rest]; [contradiction|].
  destruct (slice_1_m1 entry) as [|c sep] eqn:He; [contradiction|].
  rewrite (load_file_rows st entry filename line rest c sep Hread He).
  cbn [fst loaded_data]. apply Forall_forall. intros row Hrow.
  apply in_map_iff in Hrow. destruct Hrow as (l & <- & _).
  apply (split_from_pieces (c :: sep) (length (strip py l)));
    [discriminate | apply Nat.le_refl |].
  intros a b Hab Hb. destruct a; [|discriminate]. cbn in Hab. now subst b.
Qed.
End LoadFacts.

Lemma load_file_keeps_the_lines_witness :
  exists data,
    load_file sample_interpreter example_disk no_file default_delimiter
      (lit "curve.csv") =
    ({| loaded_data := data; in_file := lit "curve.csv";
        sand_values := hd [] data; silt_values := hd [] data |}, [], None) /\
    Forall2 (fun row line =>
               row <> [] /\
               bare sample_interpreter (join (slice_1_m1 default_delimiter) row)
               = true /\
               exists a b,
                 line = a ++ join (slice_1_m1 default_delimiter) row ++ b /\
                 all_space sample_interpreter a = true /\
                 all_space sample_interpreter b = true)
            data
            (map (fun l => lit l ++ [10%N])
               ["water,tension"; "0.3,10"; "  "; "0.2,-5"]%string).
Proof.
  apply (load_file_keeps_the_lines sample_interpreter example_disk no_file
           default_delimiter (lit "curve.csv"));
    [reflexivity | discriminate | discriminate].
Defined.


Lemma blank_line_breaks_later_columns_witness :
  nth_error
    (loaded_data (fst (fst (load_file sample_interpreter example_disk no_file
                              default_delimiter (lit "curve.csv"))))) 2 =
  Some [[]] /\
  return_column sample_interpreter sample_float
    (loaded_data (fst (fst (load_file sample_interpreter example_disk no_file
                              default_delimiter (lit "curve.csv")))))
    (lit "tension") <> Ret [10%float].
Proof.
  split.
  - apply (blank_line_breaks_later_columns sample_interpreter example_disk
             sample_float no_file default_delimiter (lit "curve.csv")
             (map (fun l => lit l ++ [10%N])
                ["water,tension"; "0.3,10"; "  "; "0.2,-5"]%string)
             1 (lit "  " ++ [10%N]));
      [reflexivity | discriminate | reflexivity | reflexivity].
  - apply (proj1 (proj2 (blank_line_breaks_later_columns sample_interpreter
                           example_disk sample_float no_file default_delimiter
                           (lit "curve.csv")
                           (map (fun l => lit l ++ [10%N])
                              ["water,tension"; "0.3,10"; "  "; "0.2,-5"]%string)
                           1 (lit "  " ++ [10%N])
                           eq_refl ltac:(discriminate) eq_refl eq_refl))
             (lit "tension") 0 [10%float]).
    reflexivity.
Defined.


Lemma loaded_cells_hold_no_delimiter_witness :
  Forall (Forall (fun cell => ~ occurs_in (slice_1_m1 default_delimiter) cell))
    (loaded_data (fst (fst (load_file sample_interpreter example_disk no_file
                              default_delimiter (lit "curve.csv"))))).
Proof.
  apply (loaded_cells_hold_no_delimiter sample_interpreter example_disk no_file
           default_delimiter (lit "curve.csv")
           (map (fun l => lit l ++ [10%N])
              ["water,tension"; "0.3,10"; "  "; "0.2,-5"]%string));
    [reflexivity | discriminate | discriminate].
Defined.

(** ** Binary64 against exact arithmetic: where the last place differs *)

Section Rounding.
Import B64 B64Order ExactFacts.



Local Open Scope R_scope.

Lemma powerRZ_2_neg (p : positive) : powerRZ 2 (Zneg p) = / IZR (Z.pow_pos 2 p).
Proof.
  unfold powerRZ. f_equal. rewrite pow_IZR. f_equal.
  now rewrite positive_nat_Z.
Qed.

(** The value of a positive binary64 number below 2^53. *)
Lemma value_finite (x : float) (m p : positive) :
  Prim2SF x = S754_finite false m (Zneg p) ->
  value x = IZR (Zpos m) / IZR (Z.pow_pos 2 p).
Proof. intros Hx. unfold value. rewrite Hx, powerRZ_2_neg. unfold Rdiv. ring. Qed.

Lemma below_by_squares (a t : R) : 0 < t -> a * a < t * t -> a < t.
Proof.
  intros Ht Hsq. destruct (Rlt_le_dec a t) as [Hlt|Hge]; [exact Hlt|].
  exfalso. assert (t * t <= a * a) by (apply Rmult_le_compat; lra). lra.
Qed.

Lemma above_by_squares (a t : R) : 0 < a -> 0 < t -> t * t < a * a -> t < a.
Proof.
  intros Ha Ht Hsq. destruct (Rlt_le_dec t a) as [Hlt|Hge]; [exact Hlt|].
  exfalso. assert (a * a <= t * t) by (apply Rmult_le_compat; lra). lra.
Qed.

Lemma sqrt2_squared : Rpower 2 (1 / 2) * Rpower 2 (1 / 2) = 2.
Proof.
  rewrite <- Rpower_plus. replace (1 / 2 + 1 / 2) with 1 by lra.
  apply Rpower_1. lra.
Qed.

Lemma inv_sqrt2_squared : Rpower 2 (- (1 / 2)) * Rpower 2 (- (1 / 2)) = 1 / 2.
Proof.
  rewrite <- Rpower_plus. replace (- (1 / 2) + - (1 / 2)) with (Ropp 1) by lra.
  rewrite Rpower_Ropp, Rpower_1 by lra. lra.
Qed.

Lemma Exact_div_two : Exact.div 1 2 = Some (1 / 2).
Proof. apply div_defined. lra. Qed.

(** 1.4142135623730951 is the binary64 number nearest to 2^(1/2): it is
    within half the spacing 2^-52 of the numbers between 1 and 2. *)
Lemma sqrt2_nearest :
  Rabs (value 1.4142135623730951%float - Rpower 2 (1 / 2)) < powerRZ 2 (-53).
Proof.
  rewrite (value_finite 1.4142135623730951%float 6369051672525773 52 eq_refl).
  rewrite powerRZ_2_neg.
  pose proof sqrt2_squared as Hsq.
  pose proof (Rpower_pos 2 (1 / 2)) as Hpos.
  set (t := Rpower 2 (1 / 2)) in *.
  change (Z.pow_pos 2 52) with 4503599627370496%Z.
  change (Z.pow_pos 2 53) with 9007199254740992%Z.
  assert (Hlo : 6369051672525773 / 4503599627370496 - / 9007199254740992 < t).
  { apply below_by_squares; [exact Hpos|]. rewrite Hsq. lra. }
  assert (Hhi : t < 6369051672525773 / 4503599627370496 + / 9007199254740992).
  { apply above_by_squares; [lra|exact Hpos|]. rewrite Hsq. lra. }
  apply Rabs_def1; lra.
Qed.

(** 0.70710678118654757 is the binary64 number nearest to 2^(-1/2),
    within half the spacing 2^-53 of the numbers between 1/2 and 1;
    the number below it, 0.70710678118654746, is farther than that. *)
Lemma inv_sqrt2_nearest :
  Rabs (value 0.70710678118654757%float - Rpower 2 (- (1 / 2))) < powerRZ 2 (-54) /\
  powerRZ 2 (-54) < Rabs (value 0.70710678118654746%float - Rpower 2 (- (1 / 2))).
Proof.
  rewrite (value_finite 0.70710678118654757%float 6369051672525773 53 eq_refl).
  rewrite (value_finite 0.70710678118654746%float 6369051672525772 53 eq_refl).
  rewrite powerRZ_2_neg.
  pose proof inv_sqrt2_squared as Hsq.
  pose proof (Rpower_pos 2 (- (1 / 2))) as Hpos.
  set (t := Rpower 2 (- (1 / 2))) in *.
  change (Z.pow_pos 2 53) with 9007199254740992%Z.
  change (Z.pow_pos 2 54) with 18014398509481984%Z.
  assert (Hlo : 6369051672525773 / 9007199254740992 - / 18014398509481984 < t).
  { apply below_by_squares; [exact Hpos|]. rewrite Hsq. lra. }
  assert (Hhi : t < 6369051672525773 / 9007199254740992 + / 18014398509481984).
  { apply above_by_squares; [lra|exact Hpos|]. rewrite Hsq. lra. }
  split.
  - apply Rabs_def1; lra.
  - rewrite Rabs_left by lra. lra.
Qed.



Local Close Scope R_scope.
Local Open Scope float_scope.

(** What the model without a library fixes, it fixes for every library:
    a value that [VG], [Campbell] or [BC] has there is its value with
    any [libm_pow]. *)
Lemma pow_of_fixed (libm_pow : float -> float -> float) (x y v : float) :
  pow x y = Some v -> pow_of libm_pow x y = v.
Proof. intros Hp. unfold pow_of. now rewrite Hp. Qed.

Lemma models_with_any_library (libm_pow : float -> float -> float) :
  (forall x qs qr alpha n v,
     VG x qs qr alpha n = Some v ->
     VG (H := libm_arith libm_pow) x qs qr alpha n = Some v) /\
  (forall x qs he b v,
     Campbell x qs he b = Some v ->
     Campbell (H := libm_arith libm_pow) x qs he b = Some v) /\
  (forall x qs qr lamda sib v,
     BC x qs qr lamda sib = Some v ->
     BC (H := libm_arith libm_pow) x qs qr lamda sib = Some v).
Proof.
  split; [|split].
  - intros x qs qr alpha n v. unfold VG.
    cbn [fpow fmul fadd fsub fdiv fone float_arith libm_arith bind].
    destruct (pow (alpha * x) n) as [a|] eqn:Ea; [|discriminate].
    cbn [bind]. rewrite (pow_of_fixed libm_pow _ _ a Ea).
    destruct (pow (1 + a) (1 - 1 / n)) as [b|] eqn:Eb; [|discriminate].
    cbn [bind]. now rewrite (pow_of_fixed libm_pow _ _ b Eb).
  - intros x qs he b v. unfold Campbell.
    cbn [fpow fmul fneg fdiv fone fle float_arith libm_arith bind].
    destruct (x <=? he); [trivial|]. cbn [where_].
    destruct (pow (x / he) (- (1) / b)) as [p|] eqn:Ep; [|discriminate].
    cbn [bind]. now rewrite (pow_of_fixed libm_pow _ _ p Ep).
  - intros x qs qr lamda sib v. unfold BC.
    cbn [fpow fmul fadd fsub fneg fdiv fle float_arith libm_arith bind].
    destruct (x <=? sib); [trivial|]. cbn [where_].
    destruct (pow (x / sib) (- lamda)) as [p|] eqn:Ep; [|discriminate].
    cbn [bind]. now rewrite (pow_of_fixed libm_pow _ _ p Ep).
Qed.

(** On binary64, with the library's [pow]: what [VG] and the formula of
    the specification compute. *)
Lemma VG_b64_value (libm_pow : float -> float -> float) (x qs qr alpha n : float) :
  VG (H := libm_arith libm_pow) x qs qr alpha n =
  Some (1 / pow_of libm_pow (1 + pow_of libm_pow (alpha * x) n) (1 - 1 / n)
        * (qs - qr) + qr) /\
  VG_spec (H := libm_arith libm_pow) x qs qr alpha n =
  Some (pow_of libm_pow (1 + pow_of libm_pow (alpha * x) n) (- (1 - 1 / n))
        * (qs - qr) + qr).
Proof. split; reflexivity. Qed.

(** C1 (as the code has it): [VG] returns se (qs - qr) + qr with
    se = 1 / (1 + (alpha x)^n)^(1 - 1/n), the reciprocal of the power
    with the positive exponent.  In exact arithmetic, for n > 1 and
    alpha > 0, that is the formula of the specification with
    Se = (1 + (alpha x)^n)^(-(1 - 1/n)), at every tension; on binary64
    the two are the expressions below, which round apart. *)
Theorem VG_computes_spec_formula :
  (forall x qs qr alpha n : R,
     (1 < n)%R -> (0 < alpha)%R ->
     VG x qs qr alpha n = VG_spec x qs qr alpha n /\
     ((0 < x)%R ->
      VG x qs qr alpha n =
      Some (Rpower (1 + Rpower (alpha * x) n) (- (1 - 1 / n)) * (qs - qr) + qr)%R)) /\
  (forall (libm_pow : float -> float -> float) (x qs qr alpha n : float),
     VG (H := libm_arith libm_pow) x qs qr alpha n =
     Some (1 / pow_of libm_pow (1 + pow_of libm_pow (alpha * x) n) (1 - 1 / n)
           * (qs - qr) + qr) /\
     VG_spec (H := libm_arith libm_pow) x qs qr alpha n =
     Some (pow_of libm_pow (1 + pow_of libm_pow (alpha * x) n) (- (1 - 1 / n))
           * (qs - qr) + qr)).
Proof.
  split; [exact VG_exact_is_spec_formula | exact VG_b64_value].
Qed.

(** C1, the claim as stated, fails on binary64.  With alpha = 1/64 and
    n = 2, at the tension 64, the formula's Se is 2^(-1/2) in exact
    arithmetic.  For a loam (qs = 0.43, qr = 0.078), a library whose
    [pow] is correctly rounded at (2, 0.5) and (2, -0.5) makes [VG]
    return 0.32690158697766469, one place below the
    0.32690158697766475 of the specification's formula;
    1.4142135623730951 and 0.70710678118654757 are these correctly
    rounded powers, and the code's se, 1 / 1.4142135623730951 =
    0.70710678118654746, is not the binary64 number nearest to Se. *)
Lemma VG_reciprocal_rounds_apart :
  (forall libm_pow : float -> float -> float,
     libm_pow 2 0.5 = 1.4142135623730951 ->
     libm_pow 2 (-0.5) = 0.70710678118654757 ->
     VG (H := libm_arith libm_pow) 64 0.43 0.078 0.015625 2 =
     Some 0.32690158697766469 /\
     VG_spec (H := libm_arith libm_pow) 64 0.43 0.078 0.015625 2 =
     Some 0.32690158697766475) /\
  ((0.32690158697766469 =? 0.32690158697766475) = false /\
   1 / 1.4142135623730951 = 0.70710678118654746) /\
  (forall qs qr : R,
     VG_spec 64%R qs qr (1 / 64)%R 2%R =
     Some (Rpower 2 (- (1 / 2)) * (qs - qr) + qr)%R) /\
  (Rabs (value 1.4142135623730951 - Rpower 2 (1 / 2)) < powerRZ 2 (-53) /\
   Rabs (value 0.70710678118654757 - Rpower 2 (- (1 / 2))) < powerRZ 2 (-54) /\
   powerRZ 2 (-54) < Rabs (value 0.70710678118654746 - Rpower 2 (- (1 / 2))))%R.
Proof.
  split; [|split; [split; reflexivity|split]].
  - intros libm_pow Hsqrt Hinv. vm_compute in Hsqrt, Hinv. split.
    + vm_compute. rewrite Hsqrt. reflexivity.
    + vm_compute. rewrite Hinv. reflexivity.
  - intros qs qr. unfold VG_spec. exact_ops.
    replace (1 / 64 * 64)%R with 1%R by lra.
    rewrite (pow_pos 1 2), Rpower_one by lra. cbn [bind].
    rewrite Exact_div_two. cbn [bind].
    rewrite pow_pos by lra. cbn [bind].
    replace (1 + 1)%R with 2%R by lra.
    replace (- (1 - 1 / 2))%R with (- (1 / 2))%R by lra. reflexivity.
  - split; [exact sqrt2_nearest | exact inv_sqrt2_nearest].
Qed.


End Rounding.

Lemma VG_computes_spec_formula_witness :
  VG 10%R (1/2)%R (1/5)%R (1/100)%R 2%R =
  VG_spec 10%R (1/2)%R (1/5)%R (1/100)%R 2%R /\
  VG 10%R (1/2)%R (1/5)%R (1/100)%R 2%R =
  Some (Rpower (1 + Rpower (1/100 * 10) 2) (- (1 - 1 / 2)) * (1/2 - 1/5) + 1/5)%R.
Proof.
  split.
  - apply (proj1 VG_computes_spec_formula 10 (1/2) (1/5) (1/100) 2)%R; lra.
  - apply (proj1 VG_computes_spec_formula 10 (1/2) (1/5) (1/100) 2)%R; lra.
Defined.

